(** * The inflation operation of dm-core

    A shallow embedding of [src/transactions/InflationOpFrame.cpp]: the
    time gate, the two distribution schemes ([origInflationOpFrame] and
    [commonBudgetInflationOpFrame]), the winner loop and the bookkeeping on
    the ledger header, followed by the properties of the operation.

    64-bit quantities are integers of [Z] with the wrap-around of every
    conversion and operation written out.  The account store seen through
    the ledger delta is a finite map from account ids to balances.  A thrown
    exception or a failed assertion is the [Throw] result of a small error
    monad: it carries no ledger, the nested delta never being committed.
    A run that returns carries the ledger as the commit of the nested delta
    leaves it; the not-time return carries the ledger it was given.  The
    tally of the votes is read from the database by code that is not part
    of this file: it is an input of the run.  The marks on the metrics
    have no effect on the ledger or on the result and are left out. *)

From Stdlib Require Import ZArith Lia.
From stdpp Require Import base option list gmap strings.

Local Open Scope Z_scope.

(** ** Constants (lines 14-21 of the source) *)

Definition INFLATION_FREQUENCY : Z := 60 * 5.
Definition INFLATION_RATE_TRILLIONTHS : Z := 190721000.
Definition TRILLION : Z := 1000000000000.
Definition INFLATION_WIN_MIN_PERCENT : Z := 500000000.
Definition INFLATION_NUM_WINNERS : Z := 2000.
Definition INFLATION_START_TIME : Z := 1404172800.

(** ** Machine integers *)

Definition INT64_MAX : Z := 9223372036854775807.
Definition INT64_MIN : Z := -9223372036854775808.
Definition UINT64_MAX : Z := 18446744073709551615.
Definition TWO64 : Z := 18446744073709551616.

(** Conversion to [uint64_t]: reduction modulo 2^64. *)
Definition u64 (z : Z) : Z := z mod TWO64.

(** Conversion to [int64_t] ([time_t], [int64]): the two's complement
    reading of the low 64 bits. *)
Definition i64 (z : Z) : Z := (z - INT64_MIN) mod TWO64 + INT64_MIN.

(** [a - b] on [int64_t]; a difference out of range is taken to wrap in
    two's complement. *)
Definition sub64 (a b : Z) : Z := i64 (a - b).

(** ** Data *)

(** An account id is kept as the strkey text of its public key, so that
    [KeyUtils::fromStrKey] is the identity on the text. *)
Definition fromStrKey (a : string) : string := a.

(** Modelled from the spec: the ledger header, whose declaration is not
    among the sources.  Section 3 of the spec gives [totalCoins],
    [feePool] and the distribution sequence as [uint64], the close time as
    a timestamp and the ledger version as [uint32]. *)
Record LedgerHeader : Type := mkHeader {
  totalCoins : Z;
  feePool : Z;
  inflationSeq : Z;
  closeTime : Z;
  ledgerVersion : Z
}.

(** The ledger as the operation sees it through its delta: the header and
    the balances of the accounts that exist. *)
Record Ledger : Type := mkLedger {
  header : LedgerHeader;
  accounts : gmap string Z
}.

(** [AccountFrame::InflationVotes]. *)
Record InflationVotes : Type := mkVotes {
  mVotes : Z;
  mInflationDest : string
}.

(** An entry of [InflationResult::payouts]. *)
Record InflationPayout : Type := mkPayout {
  destination : string;
  amount : Z
}.

Inductive InflationResult : Type :=
| INFLATION_NOT_TIME
| INFLATION_SUCCESS (payouts : list InflationPayout).

(** The part of the configuration the operation reads. *)
Record Config : Type := mkConfig {
  COMMON_BUDGET_ACCOUNT_ID : string;
  COMMON_BUDGET_INFLATION_MIN_BALANCE : Z;
  COMMON_BUDGET_INFLATION_MAX_ACCOUNTS : Z;
  COMMON_BUDGET_INFLATION_EXCLUDED_ACCOUNTS : list string
}.

(** ** Failures *)

(** What ends a run without a result: the two failures of [bigDivide]
    (outside its domain, quotient too large) and the two exceptions of the
    operation, "inflation overflowed destination balance" (line 129) and
    "inflation overflowed common budget account balance" (line 250). *)
Inductive Fault : Type :=
| BigDivideUndefined
| BigDivideOverflow
| DestinationOverflow
| CommonBudgetOverflow.

(** A run either returns or throws. *)
Inductive Res (A : Type) : Type :=
| Ok (a : A)
| Throw (f : Fault).

Arguments Ok {A} a.
Arguments Throw {A} f.

#[global] Instance Res_ret : MRet Res := fun A a => Ok a.
#[global] Instance Res_bind : MBind Res := fun A B k r =>
  match r with
  | Ok a => k a
  | Throw f => Throw f
  end.

(** ** Collaborators *)

(** Modelled from the spec: [bigDivide] with [ROUND_DOWN], the exact
    multiply-then-divide primitive with overflow detection, whose code is
    not among the sources.  It is a share [A * B / C] of a non-negative
    amount for a non-negative weight and a positive total: outside that
    domain the division is undefined and the primitive fails; the product
    is taken exactly and a quotient that does not fit in 64 bits is an
    overflow. *)
Definition bigDivide (A B C : Z) : Res Z :=
  if (0 <=? A) && (0 <=? B) && (0 <? C) then
    let x := A * B / C in
    if x <=? INT64_MAX then Ok x else Throw BigDivideOverflow
  else Throw BigDivideUndefined.

(** Modelled from the spec: [addBalance], the checked addition on an
    account balance ([false], here [None], when the sum would overflow a
    64-bit balance); its code is not among the sources. *)
Definition addBalance (balance delta : Z) : option Z :=
  if (INT64_MIN <=? balance + delta) && (balance + delta <=? INT64_MAX)
  then Some (balance + delta) else None.

(** [AccountFrame::loadAccount]: the account when it exists. *)
Definition loadAccount (db : gmap string Z) (id : string) : option Z := db !! id.

(** [storeChange] of an account whose balance is now [b]. *)
Definition storeChange (db : gmap string Z) (id : string) (b : Z) : gmap string Z :=
  <[id := b]> db.

(** The callback both schemes hand to the vote enumeration (lines 84-91
    and 195-202): keep the candidate and go on while its votes reach
    [minBalance], stop at the first one that does not. *)
Definition collectWinner (minBalance : Z) (votes : InflationVotes)
    (winners : list InflationVotes) : bool * list InflationVotes :=
  if minBalance <=? mVotes votes then (true, winners ++ [votes])
  else (false, winners).

(** Modelled from the spec: the vote enumeration of
    [AccountFrame::processForInflation] and
    [AccountFrame::processForCommonBudgetInflation], whose code is not
    among the sources.  The tally is read from the database: [rows] are
    its candidates in the order the query yields them, at most
    [maxWinners] of them are handed to the callback, one by one, until it
    answers [false]. *)
Fixpoint enumerateVotes
    (inflationProcessor : InflationVotes -> list InflationVotes -> bool * list InflationVotes)
    (rows : list InflationVotes) (winners : list InflationVotes) : list InflationVotes :=
  match rows with
  | [] => winners
  | v :: rest =>
      let '(more, winners') := inflationProcessor v winners in
      if more then enumerateVotes inflationProcessor rest winners' else winners'
  end.

Definition processForInflation
    (inflationProcessor : InflationVotes -> list InflationVotes -> bool * list InflationVotes)
    (maxWinners : Z) (rows : list InflationVotes) : list InflationVotes :=
  enumerateVotes inflationProcessor (take (Z.to_nat maxWinners) rows) [].

(** The common budget tally is given the threshold and the quoted list of
    the excluded accounts for its own query; [rows] is what that query
    yields. *)
Definition processForCommonBudgetInflation
    (inflationProcessor : InflationVotes -> list InflationVotes -> bool * list InflationVotes)
    (minBalance : Z) (excludedAccounts : string) (maxWinners : Z)
    (rows : list InflationVotes) : list InflationVotes :=
  enumerateVotes inflationProcessor (take (Z.to_nat maxWinners) rows) [].

(** ** The time gate (lines 54-58 and 161-165) *)

(** [closeTime] as the [time_t] local. *)
Definition closeTimeOf (lcl : LedgerHeader) : Z := i64 (closeTime lcl).

(** [INFLATION_START_TIME + seq * INFLATION_FREQUENCY]: the product and
    the sum are taken on [uint64_t], the result is stored in a [time_t]. *)
Definition inflationTime (lcl : LedgerHeader) : Z :=
  let seq := u64 (inflationSeq lcl) in
  i64 (u64 (u64 INFLATION_START_TIME + u64 (seq * u64 INFLATION_FREQUENCY))).

Definition notTime (lcl : LedgerHeader) : bool :=
  closeTimeOf lcl <? inflationTime lcl.

(** ** The winner loop (lines 107-135 and 214-238) *)

(** What the loop reads and writes: the header of the delta, the accounts,
    the payouts of the result and the [leftAfterDole] local. *)
Record Frame : Type := mkFrame {
  lcl : LedgerHeader;
  db : gmap string Z;
  payouts : list InflationPayout;
  leftAfterDole : Z
}.

Definition addTotalCoins (h : LedgerHeader) (d : Z) : LedgerHeader :=
  mkHeader (u64 (totalCoins h + d)) (feePool h) (inflationSeq h)
           (closeTime h) (ledgerVersion h).

Definition setFeePool (h : LedgerHeader) (v : Z) : LedgerHeader :=
  mkHeader (totalCoins h) v (inflationSeq h) (closeTime h) (ledgerVersion h).

Definition incInflationSeq (h : LedgerHeader) : LedgerHeader :=
  mkHeader (totalCoins h) (feePool h) (u64 (inflationSeq h + 1))
           (closeTime h) (ledgerVersion h).

(** One iteration.  [mint] is [true] in the original scheme, whose loop
    adds the payout to [totalCoins] up to ledger version 7, and [false] in
    the common budget scheme, whose loop has no such statement. *)
Definition doleWinner (mint : bool) (amountToDole totalVotes : Z)
    (w : InflationVotes) (s : Frame) : Res Frame :=
  toDoleThisWinner ← bigDivide amountToDole (mVotes w) totalVotes;
  if toDoleThisWinner =? 0 then Ok s
  else
    match loadAccount (db s) (mInflationDest w) with
    | None => Ok s
    | Some balance =>
        let left := sub64 (leftAfterDole s) toDoleThisWinner in
        let h := if mint && (ledgerVersion (lcl s) <=? 7)
                 then addTotalCoins (lcl s) toDoleThisWinner else lcl s in
        match addBalance balance toDoleThisWinner with
        | None => Throw DestinationOverflow
        | Some balance' =>
            Ok (mkFrame h
                  (storeChange (db s) (mInflationDest w) balance')
                  (payouts s ++ [mkPayout (mInflationDest w) toDoleThisWinner])
                  left)
        end
    end.

Fixpoint doleWinners (mint : bool) (amountToDole totalVotes : Z)
    (winners : list InflationVotes) (s : Frame) : Res Frame :=
  match winners with
  | [] => Ok s
  | w :: rest =>
      s' ← doleWinner mint amountToDole totalVotes w s;
      doleWinners mint amountToDole totalVotes rest s'
  end.

(** ** The original scheme (lines 46-150) *)

Definition origTotalVotes (h : LedgerHeader) : Z := i64 (totalCoins h).

Definition origMinBalance (h : LedgerHeader) : Res Z :=
  bigDivide (origTotalVotes h) INFLATION_WIN_MIN_PERCENT TRILLION.

Definition origInflationAmount (h : LedgerHeader) : Res Z :=
  bigDivide (i64 (totalCoins h)) INFLATION_RATE_TRILLIONTHS TRILLION.

(** [inflationAmount + lcl.feePool], a [uint64_t] sum. *)
Definition origAmountToDole (inflationAmount : Z) (h : LedgerHeader) : Z :=
  u64 (inflationAmount + feePool h).

(** The frame at the end of the loop, with the inflation amount. *)
Definition origDole (l : Ledger) (rows : list InflationVotes) : Res (Z * Frame) :=
  let h := header l in
  let totalVotes := origTotalVotes h in
  minBalance ← origMinBalance h;
  let winners :=
    processForInflation (collectWinner minBalance) INFLATION_NUM_WINNERS rows in
  inflationAmount ← origInflationAmount h;
  let amountToDole := origAmountToDole inflationAmount h in
  let h1 := incInflationSeq (setFeePool h 0) in
  s ← doleWinners true (i64 amountToDole) totalVotes winners
        (mkFrame h1 (accounts l) [] (i64 amountToDole));
  Ok (inflationAmount, s).

(** Lines 137-142: the leftover goes back to the fee pool, and from
    ledger version 8 on the inflation amount is added to [totalCoins]. *)
Definition origFinish (inflationAmount : Z) (s : Frame) : LedgerHeader :=
  let h := setFeePool (lcl s) (u64 (feePool (lcl s) + leftAfterDole s)) in
  if 7 <? ledgerVersion h then addTotalCoins h inflationAmount else h.

Definition origInflationOpFrame (l : Ledger) (rows : list InflationVotes)
    : Res (InflationResult * Ledger) :=
  if notTime (header l) then Ok (INFLATION_NOT_TIME, l)
  else
    '(inflationAmount, s) ← origDole l rows;
    Ok (INFLATION_SUCCESS (payouts s),
        mkLedger (origFinish inflationAmount s) (db s)).

(** ** The common budget scheme (lines 153-265) *)

(** Lines 174-189: the coins outside the fee pool, less the balance of
    every excluded account that exists. *)
Definition cbTotalVotes (cfg : Config) (l : Ledger) : Z :=
  fold_left
    (fun totalVotes a =>
       match loadAccount (accounts l) (fromStrKey a) with
       | Some balance => sub64 totalVotes balance
       | None => totalVotes
       end)
    (COMMON_BUDGET_INFLATION_EXCLUDED_ACCOUNTS cfg)
    (i64 (u64 (totalCoins (header l) - feePool (header l)))).

(** Lines 177-190: the excluded accounts quoted and separated by commas,
    for the query of the tally. *)
Definition excludedAccountsText (cfg : Config) : string :=
  let text :=
    fold_left (fun acc a => acc +:+ "'" +:+ a +:+ "', ")
      (COMMON_BUDGET_INFLATION_EXCLUDED_ACCOUNTS cfg) "" in
  String.substring 0 (String.length text - 2) text.

(** Line 205: [lcl.feePool * 7 / 10] on [uint64_t]. *)
Definition cbAmountToDole (h : LedgerHeader) : Z := u64 (feePool h * 7) / 10.

(** The frame at the end of the winner loop. *)
Definition cbDole (cfg : Config) (l : Ledger) (rows : list InflationVotes) : Res Frame :=
  let h := header l in
  let totalVotes := cbTotalVotes cfg l in
  let minBalance := COMMON_BUDGET_INFLATION_MIN_BALANCE cfg in
  let maxWinners := COMMON_BUDGET_INFLATION_MAX_ACCOUNTS cfg in
  let excludedAccounts := excludedAccountsText cfg in
  let winners :=
    processForCommonBudgetInflation (collectWinner minBalance)
      minBalance excludedAccounts maxWinners rows in
  let amountToDole := cbAmountToDole h in
  doleWinners false (i64 amountToDole) totalVotes winners
    (mkFrame (setFeePool h 0) (accounts l) [] (i64 (feePool h))).

(** Lines 240-258: what is left goes to the common budget account when it
    exists; the local is then emptied and the sequence number advances. *)
Definition cbCredit (cfg : Config) (s : Frame) : Res Frame :=
  let cid := fromStrKey (COMMON_BUDGET_ACCOUNT_ID cfg) in
  let amountToCommonBudget := leftAfterDole s in
  s' ← match loadAccount (db s) cid with
       | Some balance =>
           match addBalance balance amountToCommonBudget with
           | None => Throw CommonBudgetOverflow
           | Some balance' =>
               Ok (mkFrame (lcl s) (storeChange (db s) cid balance')
                     (payouts s ++ [mkPayout cid amountToCommonBudget])
                     (leftAfterDole s))
           end
       | None => Ok s
       end;
  Ok (mkFrame (incInflationSeq (lcl s')) (db s') (payouts s')
        (sub64 (leftAfterDole s') amountToCommonBudget)).

(** The frame at the commit. *)
Definition cbRun (cfg : Config) (l : Ledger) (rows : list InflationVotes) : Res Frame :=
  s ← cbDole cfg l rows;
  cbCredit cfg s.

Definition commonBudgetInflationOpFrame (cfg : Config) (l : Ledger)
    (rows : list InflationVotes) : Res (InflationResult * Ledger) :=
  if notTime (header l) then Ok (INFLATION_NOT_TIME, l)
  else
    s ← cbRun cfg l rows;
    Ok (INFLATION_SUCCESS (payouts s), mkLedger (lcl s) (db s)).

(** ** The entry point (lines 31-44) *)

Definition doApply (cfg : Config) (l : Ledger) (rows : list InflationVotes)
    : Res (InflationResult * Ledger) :=
  if String.eqb (COMMON_BUDGET_ACCOUNT_ID cfg) ""
  then origInflationOpFrame l rows
  else commonBudgetInflationOpFrame cfg l rows.

(** ** Quantities the statements speak about *)

Definition sumAmounts (ps : list InflationPayout) : Z :=
  foldr (fun p acc => amount p + acc) 0 ps.

Definition sumVotes (ws : list InflationVotes) : Z :=
  foldr (fun w acc => mVotes w + acc) 0 ws.

(** The share of [amountToDole] a winner is entitled to. *)
Definition share (amountToDole totalVotes : Z) (w : InflationVotes) : Z :=
  amountToDole * mVotes w / totalVotes.

(** The payout a winner is recorded with: none when the share is zero or
    the destination does not exist in [m]. *)
Definition payoutOf (amountToDole totalVotes : Z) (m : gmap string Z)
    (w : InflationVotes) : option InflationPayout :=
  if share amountToDole totalVotes w =? 0 then None
  else match m !! mInflationDest w with
       | Some _ => Some (mkPayout (mInflationDest w) (share amountToDole totalVotes w))
       | None => None
       end.

(** The payout records of the winner loop, in the order of the winners. *)
Definition winnerPayouts (amountToDole totalVotes : Z) (m : gmap string Z)
    (ws : list InflationVotes) : list InflationPayout :=
  omap (payoutOf amountToDole totalVotes m) ws.

(** A payout credited to the accounts. *)
Definition credit (m : gmap string Z) (p : InflationPayout) : gmap string Z :=
  match m !! destination p with
  | Some b => <[destination p := b + amount p]> m
  | None => m
  end.

Definition creditAll (m : gmap string Z) (ps : list InflationPayout) : gmap string Z :=
  fold_left credit ps m.

(** The effect of one recorded payout on the frame of the loop. *)
Definition recordPayout (grow : bool) (s : Frame) (p : InflationPayout) : Frame :=
  mkFrame (if grow then addTotalCoins (lcl s) (amount p) else lcl s)
          (credit (db s) p)
          (payouts s ++ [p])
          (sub64 (leftAfterDole s) (amount p)).

(** The inflation amount and the threshold of the original scheme as
    numbers. *)
Definition inflationAmountOf (h : LedgerHeader) : Z :=
  origTotalVotes h * INFLATION_RATE_TRILLIONTHS / TRILLION.

Definition minBalanceOf (h : LedgerHeader) : Z :=
  origTotalVotes h * INFLATION_WIN_MIN_PERCENT / TRILLION.

(** The scheme [doApply] selects, and its parameters. *)
Definition isOrig (cfg : Config) : bool := String.eqb (COMMON_BUDGET_ACCOUNT_ID cfg) "".

Definition totalVotesOf (cfg : Config) (l : Ledger) : Z :=
  if isOrig cfg then origTotalVotes (header l) else cbTotalVotes cfg l.

Definition amountToDoleOf (cfg : Config) (l : Ledger) : Z :=
  if isOrig cfg
  then i64 (origAmountToDole (inflationAmountOf (header l)) (header l))
  else i64 (cbAmountToDole (header l)).

Definition winnersOf (cfg : Config) (l : Ledger) (rows : list InflationVotes)
    : list InflationVotes :=
  if isOrig cfg
  then processForInflation (collectWinner (minBalanceOf (header l)))
         INFLATION_NUM_WINNERS rows
  else processForCommonBudgetInflation
         (collectWinner (COMMON_BUDGET_INFLATION_MIN_BALANCE cfg))
         (COMMON_BUDGET_INFLATION_MIN_BALANCE cfg) (excludedAccountsText cfg)
         (COMMON_BUDGET_INFLATION_MAX_ACCOUNTS cfg) rows.

(** The frame on entry to the winner loop. *)
Definition startFrame (cfg : Config) (l : Ledger) : Frame :=
  if isOrig cfg
  then mkFrame (incInflationSeq (setFeePool (header l) 0)) (accounts l) []
         (amountToDoleOf cfg l)
  else mkFrame (setFeePool (header l) 0) (accounts l) [] (i64 (feePool (header l))).

(** ** Ranges *)

(** The due time and the close time are representable as [time_t]. *)
Definition timeRepresentable (h : LedgerHeader) : Prop :=
  0 <= closeTime h <= INT64_MAX /\
  0 <= inflationSeq h /\
  INFLATION_START_TIME + inflationSeq h * INFLATION_FREQUENCY <= INT64_MAX.

(** The votes of the enumerated winners do not exceed the total. *)
Definition votesWithin (cfg : Config) (l : Ledger) (rows : list InflationVotes) : Prop :=
  sumVotes (winnersOf cfg l rows) <= totalVotesOf cfg l.

(** ** Properties asked of a run *)

(** The pool is accounted for, the final leftover of the common budget
    scheme being read as what [leftAfterDole] holds at the commit: in the
    original scheme the recorded payouts and what went back to the fee
    pool make up [inflationAmount + feePool]; in the common budget scheme
    the recorded payouts and that leftover make up the fee pool the run
    started from. *)
Definition poolAccountedAtCommit (cfg : Config) (l : Ledger)
    (rows : list InflationVotes) : Prop :=
  forall ps l',
    doApply cfg l rows = Ok (INFLATION_SUCCESS ps, l') ->
    if isOrig cfg
    then sumAmounts ps + feePool (header l') =
         inflationAmountOf (header l) + feePool (header l)
    else exists s, cbRun cfg l rows = Ok s /\
                   sumAmounts ps + leftAfterDole s = feePool (header l).

(** The same with the final leftover read as what [leftAfterDole] holds
    at the end of the winner loop, the amount meant for the common budget
    account. *)
Definition poolAccountedAtCredit (cfg : Config) (l : Ledger)
    (rows : list InflationVotes) : Prop :=
  forall ps l',
    doApply cfg l rows = Ok (INFLATION_SUCCESS ps, l') ->
    if isOrig cfg
    then sumAmounts ps + feePool (header l') =
         inflationAmountOf (header l) + feePool (header l)
    else exists s, cbDole cfg l rows = Ok s /\
                   sumAmounts ps + leftAfterDole s = feePool (header l).

(** The pool to distribute is representable as an [int64]. *)
Definition poolRepresentable (cfg : Config) (l : Ledger) : Prop :=
  0 <= feePool (header l) /\
  (if isOrig cfg then inflationAmountOf (header l) else 0) + feePool (header l)
    <= INT64_MAX.

(** A run past the time gate whose total of votes is not positive is
    rejected: it throws and returns no result. *)
Definition rejectsNonPositiveVotes (cfg : Config) (l : Ledger)
    (rows : list InflationVotes) : Prop :=
  notTime (header l) = false -> totalVotesOf cfg l <= 0 ->
  exists f, doApply cfg l rows = Throw f.

(** The balances of the excluded accounts that exist. *)
Definition excludedBalances (m : gmap string Z) (excluded : list string) : Z :=
  foldr (fun a acc => match m !! a with Some b => b + acc | None => acc end) 0 excluded.

(** The balances of all the accounts together. *)
Definition sumBalances (m : gmap string Z) : Z :=
  map_fold (fun _ b acc => b + acc) 0 m.

(** The shares of a list of winners together, paid or not. *)
Definition sumShares (amountToDole totalVotes : Z) (ws : list InflationVotes) : Z :=
  foldr (fun w acc => share amountToDole totalVotes w + acc) 0 ws.

(** What a run has to distribute: the inflation amount and the fee pool
    in the original scheme, the fee pool in the common budget scheme. *)
Definition poolOf (cfg : Config) (l : Ledger) : Z :=
  (if isOrig cfg then inflationAmountOf (header l) else 0) + feePool (header l).

(** The ledger at another ledger version. *)
Definition withVersion (v : Z) (l : Ledger) : Ledger :=
  mkLedger (mkHeader (totalCoins (header l)) (feePool (header l))
              (inflationSeq (header l)) (closeTime (header l)) v)
           (accounts l).

(** Two frames that agree on everything but the header. *)
Definition sameButHeader (s1 s2 : Frame) : Prop :=
  db s1 = db s2 /\ payouts s1 = payouts s2 /\ leftAfterDole s1 = leftAfterDole s2.

(** Two results that agree on everything but the header. *)
Definition sameOutcome (r1 r2 : Res Frame) : Prop :=
  match r1, r2 with
  | Ok s1, Ok s2 => sameButHeader s1 s2
  | Throw f1, Throw f2 => f1 = f2
  | _, _ => False
  end.

(** The excluded accounts as the query wants them: each between quotes,
    a comma and a space between two of them. *)
Fixpoint quotedAccounts (excluded : list string) : string :=
  match excluded with
  | [] => ""
  | [a] => "'" +:+ a +:+ "'"
  | a :: rest => "'" +:+ a +:+ "', " +:+ quotedAccounts rest
  end.

(** ** Ledgers and configurations the statements are tried on *)

(** Three accounts: a large holder [GA], the common budget account [GB]
    and a small holder [GD]; their balances and the fee pool make up the
    total of coins. *)
Definition accountsDue : gmap string Z :=
  <["GA" := 900000000000000]> (<["GB" := 99999998000000]> (<["GD" := 1000000]> ∅)).

(** Two periods after the start, closed exactly when the third payment is
    due. *)
Definition ledgerDue : Ledger :=
  mkLedger (mkHeader 1000000000000000 1000000 2 1404173400 9) accountsDue.

(** The same ledger closed one second earlier. *)
Definition ledgerEarly : Ledger :=
  mkLedger (mkHeader 1000000000000000 1000000 2 1404173399 9) accountsDue.

(** The same ledger at ledger version 7. *)
Definition ledgerOld : Ledger :=
  mkLedger (mkHeader 1000000000000000 1000000 2 1404173400 7) accountsDue.

(** A destination whose balance is the largest an account can hold. *)
Definition ledgerFull : Ledger :=
  mkLedger (mkHeader 1000000000000000 1000000 2 1404173400 9)
           (<["GA" := INT64_MAX]> accountsDue).

(** A common budget account whose balance is the largest an account can
    hold. *)
Definition ledgerFullSink : Ledger :=
  mkLedger (mkHeader 1000000000000000 1000000 2 1404173400 9)
           (<["GB" := INT64_MAX]> accountsDue).

(** A ledger without coins. *)
Definition ledgerNoCoins : Ledger :=
  mkLedger (mkHeader 0 0 2 1404173400 9) (<["GA" := 0]> ∅).

(** A ledger whose coins are all in the fee pool. *)
Definition ledgerAllFees : Ledger :=
  mkLedger (mkHeader 1000 1000 2 1404173400 9) (<["GA" := 0]> (<["GB" := 0]> ∅)).

(** A small ledger with an empty fee pool. *)
Definition ledgerSmall : Ledger :=
  mkLedger (mkHeader 1000 0 2 1404173400 9) (<["GA" := 400]> (<["GB" := 600]> ∅)).

(** A ledger a third of whose coins are in the fee pool. *)
Definition ledgerHugeFees : Ledger :=
  mkLedger (mkHeader 9000000000000000000 3000000000000000000 2 1404173400 9)
           (<["GA" := 5000000000000000000]> (<["GB" := 1000000000000000000]> ∅)).

(** A ledger whose total of coins reads as a negative [int64_t]. *)
Definition ledgerWrappedCoins : Ledger :=
  mkLedger (mkHeader 9223372036854775808 0 2 1404173400 9) (<["GA" := 0]> ∅).

(** A ledger whose coins are all in the fee pool and whose common budget
    account holds the largest balance an account can hold. *)
Definition ledgerAllFeesFullSink : Ledger :=
  mkLedger (mkHeader 1000 1000 2 1404173400 9)
           (<["GA" := 0]> (<["GB" := INT64_MAX]> ∅)).

(** The original scheme. *)
Definition configOrig : Config := mkConfig "" 0 0 [].

(** The common budget scheme: the account [GB] receives the budget and is
    excluded from the votes, with an excluded account that does not
    exist. *)
Definition configBudget : Config := mkConfig "GB" 10 5 ["GB"; "GX"].

(** The common budget scheme without exclusions. *)
Definition configPlain : Config := mkConfig "GB" 10 5 [].

(** The common budget scheme with a common budget account that does not
    exist. *)
Definition configNoSink : Config := mkConfig "GC" 10 5 [].

(** The common budget scheme with an account excluded twice. *)
Definition configTwice : Config := mkConfig "GB" 10 5 ["GB"; "GB"].

(** The tally: [GA] votes for itself. *)
Definition rowsOne : list InflationVotes := [mkVotes 900000000000000 "GA"].

(** [GA] votes for itself and [GB] for an account that does not exist. *)
Definition rowsTwo : list InflationVotes :=
  [mkVotes 900000000000000 "GA"; mkVotes 99999998000000 "GZ"].

(** [GA] and the small holder [GD] vote for themselves. *)
Definition rowsDust : list InflationVotes :=
  [mkVotes 900000000000000 "GA"; mkVotes 1000000 "GD"].

(** [GA] holds all the votes of [ledgerHugeFees]. *)
Definition rowsAll : list InflationVotes := [mkVotes 5000000000000000000 "GA"].

(** ** Machine arithmetic *)

(** Goals about the bounds of the machine types. *)
Ltac range := unfold INT64_MIN, INT64_MAX, UINT64_MAX, TWO64 in *; lia.

Lemma u64_small z : 0 <= z < TWO64 -> u64 z = z.
Proof. intros H. unfold u64. apply Z.mod_small. exact H. Qed.

Lemma i64_small z : INT64_MIN <= z <= INT64_MAX -> i64 z = z.
Proof.
  intros H. unfold i64. rewrite Z.mod_small; [lia|].
  range.
Qed.

Lemma i64_range z : INT64_MIN <= i64 z <= INT64_MAX.
Proof.
  unfold i64.
  pose proof (Z.mod_pos_bound (z - INT64_MIN) TWO64) as H.
  range.
Qed.

Lemma u64_range z : 0 <= u64 z < TWO64.
Proof. unfold u64. apply Z.mod_pos_bound. range. Qed.

Lemma u64_add_l a b : u64 (u64 a + b) = u64 (a + b).
Proof. unfold u64. apply Z.add_mod_idemp_l. range. Qed.

(** A negative [int64_t] reading of a [uint64_t] value means the value is
    above [INT64_MAX]. *)
Lemma i64_nonneg z : 0 <= z < TWO64 -> 0 <= i64 z -> i64 z = z.
Proof.
  intros Hz Hi. destruct (Z_le_gt_dec z INT64_MAX) as [Hle|Hgt].
  - apply i64_small. range.
  - exfalso. revert Hi. unfold i64.
    replace (z - INT64_MIN) with ((z - TWO64 - INT64_MIN) + 1 * TWO64)
      by range.
    rewrite Z.mod_add by range.
    rewrite Z.mod_small; range.
Qed.

(** ** The primitive *)

Lemma bigDivide_Ok A B C q :
  bigDivide A B C = Ok q ->
  0 <= A /\ 0 <= B /\ 0 < C /\ q = A * B / C /\ 0 <= q <= INT64_MAX.
Proof.
  unfold bigDivide.
  destruct (0 <=? A) eqn:HA; [|discriminate].
  destruct (0 <=? B) eqn:HB; [|discriminate].
  destruct (0 <? C) eqn:HC; [|discriminate]. simpl.
  destruct (A * B / C <=? INT64_MAX) eqn:Hq; [|discriminate].
  intros [= <-].
  apply Z.leb_le in HA, HB, Hq. apply Z.ltb_lt in HC.
  repeat split; try assumption.
  apply Z.div_pos; [apply Z.mul_nonneg_nonneg|]; assumption.
Qed.

Lemma bigDivide_in_domain A B C :
  0 <= A -> 0 <= B -> 0 < C -> A * B / C <= INT64_MAX ->
  bigDivide A B C = Ok (A * B / C).
Proof.
  intros HA HB HC Hq. unfold bigDivide.
  apply Z.leb_le in HA, HB, Hq. apply Z.ltb_lt in HC.
  rewrite HA, HB, HC. simpl. rewrite Hq. reflexivity.
Qed.

Lemma bigDivide_undefined A B C : C <= 0 -> bigDivide A B C = Throw BigDivideUndefined.
Proof.
  intros HC. unfold bigDivide.
  replace (0 <? C) with false by (symmetry; apply Z.ltb_ge; exact HC).
  rewrite andb_false_r. reflexivity.
Qed.

Lemma bigDivide_negative A B C : A < 0 -> bigDivide A B C = Throw BigDivideUndefined.
Proof.
  intros HA. unfold bigDivide.
  replace (0 <=? A) with false by (symmetry; apply Z.leb_gt; exact HA).
  reflexivity.
Qed.

(** A share by a rate below one never overflows. *)
Lemma bigDivide_rate A r :
  0 <= A <= INT64_MAX -> 0 <= r <= TRILLION ->
  bigDivide A r TRILLION = Ok (A * r / TRILLION).
Proof.
  intros HA Hr. apply bigDivide_in_domain; try lia.
  - unfold TRILLION. lia.
  - apply Z.le_trans with A; [|lia].
    apply Z.div_le_upper_bound; [unfold TRILLION; lia|].
    unfold TRILLION in *. nia.
Qed.

Lemma addBalance_Some b d b' : addBalance b d = Some b' -> b' = b + d.
Proof.
  unfold addBalance.
  destruct ((INT64_MIN <=? b + d) && (b + d <=? INT64_MAX)); [|discriminate].
  intros [= <-]. reflexivity.
Qed.

(** ** Recorded payouts on a frame *)

Lemma credit_is_Some (m : gmap string Z) p k :
  is_Some (credit m p !! k) <-> is_Some (m !! k).
Proof.
  unfold credit. destruct (m !! destination p) as [b|] eqn:Hd; [|reflexivity].
  destruct (decide (destination p = k)) as [<-|Hne].
  - rewrite lookup_insert_eq, Hd. split; intros _; eexists; reflexivity.
  - rewrite lookup_insert_ne by exact Hne. reflexivity.
Qed.

Lemma sumAmounts_app ps qs : sumAmounts (ps ++ qs) = sumAmounts ps + sumAmounts qs.
Proof. induction ps as [|p ps IH]; simpl; [reflexivity|]. rewrite IH. lia. Qed.

Lemma sumAmounts_nonneg ps :
  Forall (fun p => 0 <= amount p) ps -> 0 <= sumAmounts ps.
Proof. intros H. induction H; simpl; lia. Qed.

Lemma positive_nonneg ps :
  Forall (fun p => 0 < amount p) ps -> Forall (fun p => 0 <= amount p) ps.
Proof. intros H. eapply Forall_impl; [exact H|]. intros p Hp. simpl in Hp. lia. Qed.

Lemma recordPayout_version grow s p :
  ledgerVersion (lcl (recordPayout grow s p)) = ledgerVersion (lcl s).
Proof. unfold recordPayout. destruct grow; reflexivity. Qed.

Lemma fold_record_payouts grow ps : forall s,
  payouts (fold_left (recordPayout grow) ps s) = payouts s ++ ps.
Proof.
  induction ps as [|p ps IH]; intros s; simpl.
  - rewrite app_nil_r. reflexivity.
  - rewrite IH. simpl. rewrite <- app_assoc. reflexivity.
Qed.

Lemma fold_record_db grow ps : forall s,
  db (fold_left (recordPayout grow) ps s) = creditAll (db s) ps.
Proof.
  induction ps as [|p ps IH]; intros s; simpl; [reflexivity|].
  rewrite IH. reflexivity.
Qed.

(** The header fields no recorded payout writes. *)
Lemma fold_record_fields grow ps : forall s,
  let s' := fold_left (recordPayout grow) ps s in
  feePool (lcl s') = feePool (lcl s) /\
  inflationSeq (lcl s') = inflationSeq (lcl s) /\
  closeTime (lcl s') = closeTime (lcl s) /\
  ledgerVersion (lcl s') = ledgerVersion (lcl s).
Proof.
  induction ps as [|p ps IH]; intros s; simpl.
  - repeat split.
  - destruct (IH (recordPayout grow s p)) as (-> & -> & -> & ->).
    unfold recordPayout. destruct grow; repeat split.
Qed.

Lemma fold_record_lcl_keep ps : forall s,
  lcl (fold_left (recordPayout false) ps s) = lcl s.
Proof.
  induction ps as [|p ps IH]; intros s; simpl; [reflexivity|].
  rewrite IH. reflexivity.
Qed.

(** The additions to [totalCoins] wrap one by one, which is the wrap of
    their sum. *)
Lemma fold_record_lcl_grow ps : forall s,
  lcl (fold_left (recordPayout true) ps s) =
  mkHeader (u64 (totalCoins (lcl s) + sumAmounts ps)) (feePool (lcl s))
           (inflationSeq (lcl s)) (closeTime (lcl s)) (ledgerVersion (lcl s)) \/
  ps = [] /\ lcl (fold_left (recordPayout true) ps s) = lcl s.
Proof.
  induction ps as [|p ps IH]; intros s; simpl.
  - right. split; reflexivity.
  - left. destruct (IH (recordPayout true s p)) as [->|[-> ->]]; simpl.
    + rewrite u64_add_l. f_equal. f_equal. lia.
    + unfold addTotalCoins. f_equal. f_equal. lia.
Qed.

(** The total coins after the recorded payouts, when nothing wraps. *)
Lemma fold_record_coins grow ps s :
  0 <= totalCoins (lcl s) ->
  Forall (fun p => 0 <= amount p) ps ->
  totalCoins (lcl s) + sumAmounts ps < TWO64 ->
  totalCoins (lcl (fold_left (recordPayout grow) ps s)) =
  if grow then totalCoins (lcl s) + sumAmounts ps else totalCoins (lcl s).
Proof.
  intros H0 Hpos Hlt. destruct grow.
  - destruct (fold_record_lcl_grow ps s) as [->|[-> ->]]; simpl; [|lia].
    apply u64_small. pose proof (sumAmounts_nonneg ps Hpos). lia.
  - rewrite fold_record_lcl_keep. reflexivity.
Qed.

(** The leftover is the start less the payouts as long as the running
    difference stays inside [int64_t]. *)
Lemma fold_record_left grow ps : forall s,
  Forall (fun p => 0 <= amount p) ps ->
  leftAfterDole s <= INT64_MAX ->
  INT64_MIN <= leftAfterDole s - sumAmounts ps ->
  leftAfterDole (fold_left (recordPayout grow) ps s) = leftAfterDole s - sumAmounts ps.
Proof.
  induction ps as [|p ps IH]; intros s Hpos Hmax Hmin; simpl in *.
  - lia.
  - inversion Hpos as [|? ? Hp Hps]; subst.
    pose proof (sumAmounts_nonneg ps Hps) as Hsum.
    assert (sub64 (leftAfterDole s) (amount p) = leftAfterDole s - amount p) as Hsub.
    { unfold sub64. apply i64_small. lia. }
    rewrite IH; simpl; rewrite ?Hsub; try assumption; lia.
Qed.

(** ** The winner loop as a list of recorded payouts *)

Section WinnerLoop.

(** The loop runs with a fixed version gate, amount to dole and total of
    votes. *)
Variable mint : bool.
Variables A TV : Z.

Lemma winnerPayouts_step m w ws :
  winnerPayouts A TV m (w :: ws) =
  match payoutOf A TV m w with
  | Some p => p :: winnerPayouts A TV m ws
  | None => winnerPayouts A TV m ws
  end.
Proof. reflexivity. Qed.

Lemma payoutOf_ext (m m' : gmap string Z) w :
  (forall k, is_Some (m !! k) <-> is_Some (m' !! k)) ->
  payoutOf A TV m w = payoutOf A TV m' w.
Proof.
  intros Hdom. unfold payoutOf.
  destruct (share A TV w =? 0); [reflexivity|].
  specialize (Hdom (mInflationDest w)).
  destruct (m !! mInflationDest w) as [b|], (m' !! mInflationDest w) as [b'|];
    try reflexivity.
  - destruct Hdom as [Hd _]. destruct Hd as [? [=]]. eexists; reflexivity.
  - destruct Hdom as [_ Hd]. destruct Hd as [? [=]]. eexists; reflexivity.
Qed.

Lemma winnerPayouts_ext (m m' : gmap string Z) ws :
  (forall k, is_Some (m !! k) <-> is_Some (m' !! k)) ->
  winnerPayouts A TV m ws = winnerPayouts A TV m' ws.
Proof.
  intros Hdom. induction ws as [|w ws IH]; [reflexivity|].
  rewrite !winnerPayouts_step, IH, (payoutOf_ext m m' w Hdom). reflexivity.
Qed.

Lemma winnerPayouts_cons m w ws :
  winnerPayouts A TV m (w :: ws) = winnerPayouts A TV m [w] ++ winnerPayouts A TV m ws.
Proof.
  rewrite !winnerPayouts_step. destruct (payoutOf A TV m w); reflexivity.
Qed.

Lemma payoutOf_Some m w p :
  payoutOf A TV m w = Some p ->
  destination p = mInflationDest w /\ amount p = share A TV w /\
  share A TV w <> 0 /\ is_Some (m !! mInflationDest w).
Proof.
  unfold payoutOf. destruct (share A TV w =? 0) eqn:Hz; [discriminate|].
  destruct (m !! mInflationDest w) as [b|]; [|discriminate].
  intros [= <-]. apply Z.eqb_neq in Hz. simpl. repeat split; try assumption.
  eexists; reflexivity.
Qed.

(** Every record of [winnerPayouts] belongs to a winner, carries its
    share, and the share is not zero. *)
Lemma winnerPayouts_elem m ws :
  Forall (fun p => exists w, w ∈ ws /\ destination p = mInflationDest w /\
                             amount p = share A TV w /\ amount p <> 0)
         (winnerPayouts A TV m ws).
Proof.
  induction ws as [|w ws IH]; [constructor|].
  rewrite winnerPayouts_step.
  assert (Forall (fun p => exists w0, w0 ∈ w :: ws /\ destination p = mInflationDest w0 /\
                             amount p = share A TV w0 /\ amount p <> 0)
                 (winnerPayouts A TV m ws)) as IH'.
  { eapply Forall_impl; [exact IH|]. intros p (w0 & Hin & Hd & Ha & Hnz).
    exists w0. split; [right; exact Hin|]. repeat split; assumption. }
  destruct (payoutOf A TV m w) as [p|] eqn:Hp; [|exact IH'].
  constructor; [|exact IH'].
  apply payoutOf_Some in Hp as (Hd & Ha & Hnz & _).
  exists w. split; [left|]. repeat split; try assumption. congruence.
Qed.

Lemma share_bounds w :
  0 <= A -> 0 < TV -> 0 <= mVotes w ->
  0 <= share A TV w /\ TV * share A TV w <= A * mVotes w.
Proof.
  intros HA HTV Hv. unfold share. split.
  - apply Z.div_pos; [apply Z.mul_nonneg_nonneg; assumption|assumption].
  - apply Z.mul_div_le. exact HTV.
Qed.

(** The recorded payouts never exceed the pooled shares of the winners. *)
Lemma winnerPayouts_sum m ws :
  0 <= A -> 0 < TV -> Forall (fun w => 0 <= mVotes w) ws ->
  Forall (fun p => 0 < amount p) (winnerPayouts A TV m ws) /\
  0 <= sumAmounts (winnerPayouts A TV m ws) /\
  TV * sumAmounts (winnerPayouts A TV m ws) <= A * sumVotes ws.
Proof.
  intros HA HTV Hall. induction Hall as [|w ws Hw Hall IH].
  - simpl. repeat split; [constructor|lia|lia].
  - destruct IH as (IHpos & IH0 & IHle).
    destruct (share_bounds w HA HTV Hw) as [Hs0 Hsle].
    rewrite winnerPayouts_step. simpl sumVotes.
    destruct (payoutOf A TV m w) as [p|] eqn:Hp.
    + apply payoutOf_Some in Hp as (_ & Ha & Hnz & _).
      simpl sumAmounts. rewrite Ha. repeat split.
      * constructor; [lia|exact IHpos].
      * lia.
      * nia.
    + repeat split; [exact IHpos|exact IH0|nia].
Qed.

Lemma winnerPayouts_le m ws :
  0 <= A -> 0 < TV -> Forall (fun w => 0 <= mVotes w) ws -> sumVotes ws <= TV ->
  sumAmounts (winnerPayouts A TV m ws) <= A.
Proof.
  intros HA HTV Hall Hsum.
  destruct (winnerPayouts_sum m ws HA HTV Hall) as (_ & H0 & Hle).
  nia.
Qed.

(** One iteration either leaves the frame as it is or records one
    payout. *)
Lemma doleWinner_Ok w s s' :
  doleWinner mint A TV w s = Ok s' ->
  bigDivide A (mVotes w) TV = Ok (share A TV w) /\
  ((winnerPayouts A TV (db s) [w] = [] /\ s' = s) \/
   (exists p, winnerPayouts A TV (db s) [w] = [p] /\
              s' = recordPayout (mint && (ledgerVersion (lcl s) <=? 7)) s p)).
Proof.
  unfold doleWinner. destruct (bigDivide A (mVotes w) TV) as [t|f] eqn:Hdiv; [|discriminate].
  destruct (bigDivide_Ok _ _ _ _ Hdiv) as (_ & _ & _ & Ht & _).
  fold (share A TV w) in Ht. subst t. cbn [mbind Res_bind].
  intros H. split; [reflexivity|]. revert H.
  rewrite winnerPayouts_step. unfold payoutOf, loadAccount.
  destruct (share A TV w =? 0) eqn:Hz.
  - intros [= <-]. left. split; reflexivity.
  - destruct (db s !! mInflationDest w) as [b|] eqn:Hacc.
    + destruct (addBalance b (share A TV w)) as [b'|] eqn:Hadd; [|discriminate].
      intros [= <-]. right. eexists. split; [reflexivity|].
      apply addBalance_Some in Hadd. subst b'.
      unfold recordPayout, credit, storeChange. simpl. rewrite Hacc.
      destruct (mint && (ledgerVersion (lcl s) <=? 7)); reflexivity.
    + intros [= <-]. left. split; reflexivity.
Qed.

(** The iteration of a winner whose share is zero returns the frame. *)
Lemma doleWinner_zero w s :
  bigDivide A (mVotes w) TV = Ok 0 -> doleWinner mint A TV w s = Ok s.
Proof. unfold doleWinner. intros ->. reflexivity. Qed.

(** The iteration throws when the checked addition fails. *)
Lemma doleWinner_overflow w s t b :
  bigDivide A (mVotes w) TV = Ok t -> t <> 0 ->
  db s !! mInflationDest w = Some b -> addBalance b t = None ->
  doleWinner mint A TV w s = Throw DestinationOverflow.
Proof.
  intros Hdiv Hnz Hacc Hadd. unfold doleWinner, loadAccount.
  rewrite Hdiv. cbn [mbind Res_bind].
  apply Z.eqb_neq in Hnz. rewrite Hnz, Hacc, Hadd. reflexivity.
Qed.

(** A loop that returns has recorded exactly [winnerPayouts], and every
    share it computed is the exact quotient. *)
Lemma doleWinners_Ok ws : forall s s',
  doleWinners mint A TV ws s = Ok s' ->
  s' = fold_left (recordPayout (mint && (ledgerVersion (lcl s) <=? 7)))
         (winnerPayouts A TV (db s) ws) s /\
  Forall (fun w => bigDivide A (mVotes w) TV = Ok (share A TV w)) ws.
Proof.
  induction ws as [|w ws IH]; intros s s' H.
  - simpl in H. injection H as <-. split; [reflexivity|constructor].
  - simpl in H.
    destruct (doleWinner mint A TV w s) as [s1|f] eqn:Hstep; [|discriminate].
    simpl in H. apply doleWinner_Ok in Hstep as [Hdiv Hcase].
    apply IH in H as [Hs' Hall].
    split; [|constructor; assumption].
    rewrite winnerPayouts_cons, fold_left_app.
    destruct Hcase as [[Hnone ->]|[p [Hone ->]]].
    + rewrite Hnone. exact Hs'.
    + rewrite Hone. simpl. rewrite recordPayout_version in Hs'.
      rewrite Hs'. f_equal. apply winnerPayouts_ext.
      intros k. unfold recordPayout. simpl. apply credit_is_Some.
Qed.

(** The loop over a list in two parts. *)
Lemma doleWinners_app pre post s :
  doleWinners mint A TV (pre ++ post) s =
  match doleWinners mint A TV pre s with
  | Ok s' => doleWinners mint A TV post s'
  | Throw f => Throw f
  end.
Proof.
  revert s. induction pre as [|w pre IH]; intros s; [reflexivity|].
  simpl. destruct (doleWinner mint A TV w s) as [s1|f]; [|reflexivity].
  cbn [mbind Res_bind]. apply IH.
Qed.

(** With a total of votes that is not positive the first iteration
    throws. *)
Lemma doleWinners_undefined w ws s :
  TV <= 0 -> doleWinners mint A TV (w :: ws) s = Throw BigDivideUndefined.
Proof.
  intros HTV. simpl. unfold doleWinner.
  rewrite (bigDivide_undefined _ _ _ HTV). reflexivity.
Qed.

(** What a returning loop says about its inputs. *)
Lemma doleWinners_domain ws :
  Forall (fun w => bigDivide A (mVotes w) TV = Ok (share A TV w)) ws ->
  Forall (fun w => 0 <= mVotes w) ws /\ (ws <> [] -> 0 <= A /\ 0 < TV).
Proof.
  intros Hall. split.
  - eapply Forall_impl; [exact Hall|]. intros w Hw.
    apply bigDivide_Ok in Hw. tauto.
  - destruct Hall as [|w ws Hw _]; [congruence|]. intros _.
    apply bigDivide_Ok in Hw. tauto.
Qed.

(** The payouts of a returning loop: positive, and within
    [amountToDole] when the votes are within the total. *)
Lemma doleWinners_payouts ws s s' :
  doleWinners mint A TV ws s = Ok s' ->
  Forall (fun p => 0 < amount p) (winnerPayouts A TV (db s) ws) /\
  0 <= sumAmounts (winnerPayouts A TV (db s) ws) /\
  (sumVotes ws <= TV -> sumAmounts (winnerPayouts A TV (db s) ws) <= Z.max 0 A).
Proof.
  intros H. apply doleWinners_Ok in H as [_ Hall].
  apply doleWinners_domain in Hall as [Hv Hne].
  destruct ws as [|w ws].
  - simpl. repeat split; [constructor|lia|intros; lia].
  - destruct Hne as [HA HTV]; [discriminate|].
    destruct (winnerPayouts_sum (db s) (w :: ws) HA HTV Hv) as (Hpos & H0 & _).
    repeat split; try assumption.
    intros Hsum. rewrite Z.max_r by exact HA. apply winnerPayouts_le; assumption.
Qed.

(** The frame a returning loop leaves, field by field. *)
Lemma loop_result ws s0 s :
  doleWinners mint A TV ws s0 = Ok s ->
  payouts s = payouts s0 ++ winnerPayouts A TV (db s0) ws /\
  db s = creditAll (db s0) (winnerPayouts A TV (db s0) ws) /\
  feePool (lcl s) = feePool (lcl s0) /\
  inflationSeq (lcl s) = inflationSeq (lcl s0) /\
  closeTime (lcl s) = closeTime (lcl s0) /\
  ledgerVersion (lcl s) = ledgerVersion (lcl s0).
Proof.
  intros H. apply doleWinners_Ok in H as [-> _].
  rewrite fold_record_payouts, fold_record_db.
  split; [reflexivity|]. split; [reflexivity|]. apply fold_record_fields.
Qed.

End WinnerLoop.

(** ** The two schemes unfolded *)

(** The enumeration hands over a prefix of the candidates: every winner
    reaches the threshold and there are at most [maxWinners] of them. *)
Lemma enumerateVotes_collect minBalance rows : forall winners,
  Forall (fun w => minBalance <= mVotes w) winners ->
  Forall (fun w => minBalance <= mVotes w)
         (enumerateVotes (collectWinner minBalance) rows winners) /\
  (length (enumerateVotes (collectWinner minBalance) rows winners)
   <= length winners + length rows)%nat.
Proof.
  induction rows as [|v rows IH]; intros winners Hall; simpl.
  - split; [exact Hall|lia].
  - unfold collectWinner at 1 3. destruct (minBalance <=? mVotes v) eqn:Hv.
    + destruct (IH (winners ++ [v])) as [Hf Hl].
      { apply Forall_app. split; [exact Hall|].
        constructor; [apply Z.leb_le; exact Hv|constructor]. }
      split; [exact Hf|]. rewrite length_app in Hl. simpl in Hl. lia.
    + split; [exact Hall|lia].
Qed.

Lemma winnersOf_threshold cfg l rows :
  let minBalance := if isOrig cfg then minBalanceOf (header l)
                    else COMMON_BUDGET_INFLATION_MIN_BALANCE cfg in
  let maxWinners := if isOrig cfg then INFLATION_NUM_WINNERS
                    else COMMON_BUDGET_INFLATION_MAX_ACCOUNTS cfg in
  Forall (fun w => minBalance <= mVotes w) (winnersOf cfg l rows) /\
  (length (winnersOf cfg l rows) <= Z.to_nat maxWinners)%nat.
Proof.
  unfold winnersOf, processForInflation, processForCommonBudgetInflation.
  destruct (isOrig cfg); simpl;
    match goal with
    | |- context [enumerateVotes (collectWinner ?m) (take ?n rows) []] =>
        destruct (enumerateVotes_collect m (take n rows) []) as [Hf Hl];
        [constructor|];
        split; [exact Hf|]; simpl in Hl; rewrite length_take in Hl; lia
    end.
Qed.

Lemma origTotalVotes_range h : INT64_MIN <= origTotalVotes h <= INT64_MAX.
Proof. apply i64_range. Qed.

Lemma orig_params h :
  0 <= origTotalVotes h ->
  origMinBalance h = Ok (minBalanceOf h) /\
  origInflationAmount h = Ok (inflationAmountOf h).
Proof.
  intros H0. pose proof (origTotalVotes_range h) as [_ Hmax].
  unfold origMinBalance, origInflationAmount, minBalanceOf, inflationAmountOf.
  fold (origTotalVotes h).
  split; apply bigDivide_rate; try lia;
    unfold INFLATION_WIN_MIN_PERCENT, INFLATION_RATE_TRILLIONTHS, TRILLION; lia.
Qed.

Lemma inflationAmountOf_bounds h :
  0 <= origTotalVotes h -> 0 <= inflationAmountOf h <= origTotalVotes h.
Proof.
  intros H0. unfold inflationAmountOf. split.
  - apply Z.div_pos; unfold INFLATION_RATE_TRILLIONTHS, TRILLION; lia.
  - apply Z.div_le_upper_bound; unfold INFLATION_RATE_TRILLIONTHS, TRILLION; nia.
Qed.

Lemma doApply_orig cfg l rows :
  isOrig cfg = true -> doApply cfg l rows = origInflationOpFrame l rows.
Proof. unfold doApply, isOrig. intros ->. reflexivity. Qed.

Lemma doApply_cb cfg l rows :
  isOrig cfg = false -> doApply cfg l rows = commonBudgetInflationOpFrame cfg l rows.
Proof. unfold doApply, isOrig. intros ->. reflexivity. Qed.

Lemma doApply_notTime cfg l rows :
  notTime (header l) = true -> doApply cfg l rows = Ok (INFLATION_NOT_TIME, l).
Proof.
  intros H. unfold doApply, origInflationOpFrame, commonBudgetInflationOpFrame.
  rewrite H. destruct (String.eqb _ _); reflexivity.
Qed.

(** The original scheme past the time gate. *)
Lemma orig_run cfg l rows :
  isOrig cfg = true -> notTime (header l) = false -> 0 <= origTotalVotes (header l) ->
  doApply cfg l rows =
  match doleWinners true (amountToDoleOf cfg l) (totalVotesOf cfg l)
          (winnersOf cfg l rows) (startFrame cfg l) with
  | Ok s => Ok (INFLATION_SUCCESS (payouts s),
                mkLedger (origFinish (inflationAmountOf (header l)) s) (db s))
  | Throw f => Throw f
  end.
Proof.
  intros Ho Ht H0. rewrite (doApply_orig _ _ _ Ho).
  unfold origInflationOpFrame, origDole. rewrite Ht.
  destruct (orig_params _ H0) as [-> ->].
  unfold amountToDoleOf, totalVotesOf, winnersOf, startFrame, amountToDoleOf.
  rewrite Ho. cbn [mbind Res_bind].
  destruct (doleWinners _ _ _ _ _); reflexivity.
Qed.

Lemma orig_negative cfg l rows :
  isOrig cfg = true -> notTime (header l) = false -> origTotalVotes (header l) < 0 ->
  doApply cfg l rows = Throw BigDivideUndefined.
Proof.
  intros Ho Ht H0. rewrite (doApply_orig _ _ _ Ho).
  unfold origInflationOpFrame, origDole, origMinBalance. rewrite Ht.
  rewrite bigDivide_negative by exact H0. reflexivity.
Qed.

(** The common budget scheme past the time gate. *)
Lemma cb_run cfg l rows :
  isOrig cfg = false -> notTime (header l) = false ->
  doApply cfg l rows =
  match doleWinners false (amountToDoleOf cfg l) (totalVotesOf cfg l)
          (winnersOf cfg l rows) (startFrame cfg l) with
  | Ok s =>
      match cbCredit cfg s with
      | Ok s' => Ok (INFLATION_SUCCESS (payouts s'), mkLedger (lcl s') (db s'))
      | Throw f => Throw f
      end
  | Throw f => Throw f
  end.
Proof.
  intros Ho Ht. rewrite (doApply_cb _ _ _ Ho).
  unfold commonBudgetInflationOpFrame, cbRun, cbDole. rewrite Ht.
  unfold amountToDoleOf, totalVotesOf, winnersOf, startFrame.
  rewrite Ho. cbn [mbind Res_bind].
  destruct (doleWinners _ _ _ _ _) as [s|f]; [|reflexivity].
  cbn [mbind Res_bind]. destruct (cbCredit cfg s); reflexivity.
Qed.

(** ** The time gate *)

Lemma closeTimeOf_exact h : timeRepresentable h -> closeTimeOf h = closeTime h.
Proof.
  intros (Hc & _). unfold closeTimeOf. apply i64_small.
  range.
Qed.

Lemma inflationTime_exact h :
  timeRepresentable h ->
  inflationTime h = INFLATION_START_TIME + inflationSeq h * INFLATION_FREQUENCY.
Proof.
  intros (_ & Hs & Hd). unfold inflationTime.
  unfold INFLATION_START_TIME, INFLATION_FREQUENCY, INT64_MAX in *.
  rewrite (u64_small (inflationSeq h)) by range.
  rewrite (u64_small 1404172800) by range.
  rewrite (u64_small (60 * 5)) by range.
  rewrite (u64_small (inflationSeq h * (60 * 5))) by range.
  rewrite u64_small by range.
  apply i64_small. range.
Qed.

Lemma notTime_exact h :
  timeRepresentable h ->
  notTime h = true <->
  closeTime h < INFLATION_START_TIME + inflationSeq h * INFLATION_FREQUENCY.
Proof.
  intros Hr. unfold notTime.
  rewrite (closeTimeOf_exact h Hr), (inflationTime_exact h Hr).
  apply Z.ltb_lt.
Qed.

(** Past the gate the result is never [INFLATION_NOT_TIME]. *)
Lemma doApply_due cfg l rows r l' :
  notTime (header l) = false -> doApply cfg l rows = Ok (r, l') ->
  exists ps, r = INFLATION_SUCCESS ps.
Proof.
  intros Ht. unfold doApply, origInflationOpFrame, commonBudgetInflationOpFrame.
  rewrite Ht. destruct (String.eqb _ _).
  - destruct (origDole l rows) as [[ia s]|f]; [|discriminate].
    intros [= <- <-]. eexists; reflexivity.
  - destruct (cbRun cfg l rows) as [s|f]; [|discriminate].
    intros [= <- <-]. eexists; reflexivity.
Qed.

(** C3: under a representable close time and due time, [doApply] returns
    the not-time result exactly when the close time is before
    [INFLATION_START_TIME + inflationSeq * INFLATION_FREQUENCY], and the
    ledger it then returns (header aggregates and every account balance)
    is the ledger it was given. *)
Theorem notTime_iff_before_due cfg l rows :
  timeRepresentable (header l) ->
  ((exists l', doApply cfg l rows = Ok (INFLATION_NOT_TIME, l')) <->
   closeTime (header l) <
     INFLATION_START_TIME + inflationSeq (header l) * INFLATION_FREQUENCY) /\
  (forall l', doApply cfg l rows = Ok (INFLATION_NOT_TIME, l') -> l' = l).
Proof.
  intros Hr. pose proof (notTime_exact _ Hr) as Hiff.
  destruct (notTime (header l)) eqn:Ht.
  - rewrite (doApply_notTime cfg l rows Ht). split.
    + split; [intros _; apply Hiff; reflexivity|intros _; eexists; reflexivity].
    + intros l' [= <-]. reflexivity.
  - split.
    + split.
      * intros [l' H]. destruct (doApply_due _ _ _ _ _ Ht H) as [ps [=]].
      * intros H. apply Hiff in H. discriminate.
    + intros l' H. destruct (doApply_due _ _ _ _ _ Ht H) as [ps [=]].
Qed.

Lemma notTime_iff_before_due_witness :
  timeRepresentable (header ledgerEarly) /\
  doApply configBudget ledgerEarly rowsOne = Ok (INFLATION_NOT_TIME, ledgerEarly).
Proof.
  assert (timeRepresentable (header ledgerEarly)) as Hr.
  { unfold timeRepresentable, INT64_MAX, INFLATION_START_TIME, INFLATION_FREQUENCY.
    simpl. lia. }
  split; [exact Hr|].
  destruct (notTime_iff_before_due configBudget ledgerEarly rowsOne Hr)
    as [[_ Hnot] Hsame].
  destruct Hnot as [l' Hl'].
  { unfold INFLATION_START_TIME, INFLATION_FREQUENCY. simpl. lia. }
  rewrite Hl'. rewrite (Hsame l' Hl'). reflexivity.
Defined.

(** ** Runs that apply *)

Lemma orig_success cfg l rows ps l' :
  isOrig cfg = true ->
  doApply cfg l rows = Ok (INFLATION_SUCCESS ps, l') ->
  notTime (header l) = false /\ 0 <= origTotalVotes (header l) /\
  exists s,
    doleWinners true (amountToDoleOf cfg l) (totalVotesOf cfg l)
      (winnersOf cfg l rows) (startFrame cfg l) = Ok s /\
    ps = payouts s /\
    l' = mkLedger (origFinish (inflationAmountOf (header l)) s) (db s).
Proof.
  intros Ho H. destruct (notTime (header l)) eqn:Ht.
  { rewrite (doApply_notTime _ _ _ Ht) in H. discriminate. }
  destruct (Z_lt_le_dec (origTotalVotes (header l)) 0) as [Hneg|H0].
  { rewrite (orig_negative _ _ _ Ho Ht Hneg) in H. discriminate. }
  rewrite (orig_run _ _ _ Ho Ht H0) in H.
  destruct (doleWinners _ _ _ _ _) as [s|f]; [|discriminate].
  injection H as <- <-. repeat split; try assumption.
  exists s. repeat split.
Qed.

Lemma cb_success cfg l rows ps l' :
  isOrig cfg = false ->
  doApply cfg l rows = Ok (INFLATION_SUCCESS ps, l') ->
  notTime (header l) = false /\
  exists s s',
    doleWinners false (amountToDoleOf cfg l) (totalVotesOf cfg l)
      (winnersOf cfg l rows) (startFrame cfg l) = Ok s /\
    cbCredit cfg s = Ok s' /\
    ps = payouts s' /\ l' = mkLedger (lcl s') (db s').
Proof.
  intros Ho H. destruct (notTime (header l)) eqn:Ht.
  { rewrite (doApply_notTime _ _ _ Ht) in H. discriminate. }
  rewrite (cb_run _ _ _ Ho Ht) in H.
  destruct (doleWinners _ _ _ _ _) as [s|f]; [|discriminate].
  destruct (cbCredit cfg s) as [s'|f] eqn:Hc; [|discriminate].
  injection H as <- <-. split; [reflexivity|].
  exists s, s'. repeat split. exact Hc.
Qed.

(** The credit to the common budget account, case by case. *)
Lemma cbCredit_Ok cfg s s' :
  cbCredit cfg s = Ok s' ->
  lcl s' = incInflationSeq (lcl s) /\
  leftAfterDole s' = sub64 (leftAfterDole s) (leftAfterDole s) /\
  ((db s !! COMMON_BUDGET_ACCOUNT_ID cfg = None /\
    db s' = db s /\ payouts s' = payouts s) \/
   (exists b, db s !! COMMON_BUDGET_ACCOUNT_ID cfg = Some b /\
      addBalance b (leftAfterDole s) = Some (b + leftAfterDole s) /\
      db s' = <[COMMON_BUDGET_ACCOUNT_ID cfg := b + leftAfterDole s]> (db s) /\
      payouts s' = payouts s ++
                   [mkPayout (COMMON_BUDGET_ACCOUNT_ID cfg) (leftAfterDole s)])).
Proof.
  unfold cbCredit, loadAccount, fromStrKey, storeChange.
  destruct (db s !! COMMON_BUDGET_ACCOUNT_ID cfg) as [b|] eqn:Hb.
  - destruct (addBalance b (leftAfterDole s)) as [b'|] eqn:Hadd; [|discriminate].
    cbn [mbind Res_bind]. intros [= <-]. simpl.
    pose proof (addBalance_Some _ _ _ Hadd) as ->.
    repeat split. right. exists b. repeat split. exact Hadd.
  - cbn [mbind Res_bind]. intros [= <-]. simpl.
    repeat split. left. repeat split.
Qed.

Lemma sub64_self a : sub64 a a = 0.
Proof. unfold sub64. rewrite Z.sub_diag. reflexivity. Qed.

Lemma origFinish_seq ia s : inflationSeq (origFinish ia s) = inflationSeq (lcl s).
Proof. unfold origFinish. simpl. destruct (7 <? ledgerVersion (lcl s)); reflexivity. Qed.

(** C9: whenever the sequence number is below the largest 64-bit value,
    a run that returns success leaves it increased by exactly one, and a
    run that returns not-time leaves it as it was, in both schemes. *)
Theorem inflationSeq_advances_on_success cfg l rows r l' :
  0 <= inflationSeq (header l) < UINT64_MAX ->
  doApply cfg l rows = Ok (r, l') ->
  inflationSeq (header l') =
  match r with
  | INFLATION_SUCCESS _ => inflationSeq (header l) + 1
  | INFLATION_NOT_TIME => inflationSeq (header l)
  end.
Proof.
  intros Hseq H.
  assert (u64 (inflationSeq (header l) + 1) = inflationSeq (header l) + 1) as Hinc.
  { apply u64_small. range. }
  destruct (notTime (header l)) eqn:Ht.
  - rewrite (doApply_notTime _ _ _ Ht) in H. injection H as <- <-. reflexivity.
  - destruct (doApply_due _ _ _ _ _ Ht H) as [ps ->].
    destruct (isOrig cfg) eqn:Ho.
    + apply (orig_success _ _ _ _ _ Ho) in H as (_ & _ & s & Hloop & _ & ->).
      apply loop_result in Hloop as (_ & _ & _ & Hs & _).
      simpl. rewrite origFinish_seq, Hs. unfold startFrame. rewrite Ho.
      simpl. exact Hinc.
    + apply (cb_success _ _ _ _ _ Ho) in H as (_ & s & s' & Hloop & Hc & _ & ->).
      apply loop_result in Hloop as (_ & _ & _ & Hs & _).
      apply cbCredit_Ok in Hc as (Hl & _). simpl. rewrite Hl. simpl.
      rewrite Hs. unfold startFrame. rewrite Ho. simpl. exact Hinc.
Qed.

Lemma inflationSeq_advances_on_success_witness :
  (exists l',
     doApply configOrig ledgerDue rowsOne =
       Ok (INFLATION_SUCCESS [mkPayout "GA" 171649800000], l') /\
     inflationSeq (header l') = 2 + 1) /\
  (exists l',
     doApply configBudget ledgerEarly rowsOne = Ok (INFLATION_NOT_TIME, l') /\
     inflationSeq (header l') = 2).
Proof.
  split.
  - eexists. split; [vm_compute; reflexivity|].
    apply (inflationSeq_advances_on_success configOrig ledgerDue rowsOne
             (INFLATION_SUCCESS [mkPayout "GA" 171649800000])).
    + unfold UINT64_MAX. simpl. lia.
    + vm_compute. reflexivity.
  - eexists. split; [vm_compute; reflexivity|].
    apply (inflationSeq_advances_on_success configBudget ledgerEarly rowsOne
             INFLATION_NOT_TIME).
    + unfold UINT64_MAX. simpl. lia.
    + vm_compute. reflexivity.
Defined.

(** ** The original scheme: supply and pool *)

Lemma startFrame_orig cfg l :
  isOrig cfg = true ->
  startFrame cfg l =
  mkFrame (incInflationSeq (setFeePool (header l) 0)) (accounts l) []
          (amountToDoleOf cfg l).
Proof. unfold startFrame. intros ->. reflexivity. Qed.

Lemma startFrame_cb cfg l :
  isOrig cfg = false ->
  startFrame cfg l =
  mkFrame (setFeePool (header l) 0) (accounts l) [] (i64 (feePool (header l))).
Proof. unfold startFrame. intros ->. reflexivity. Qed.

Lemma origTotalVotes_exact h :
  0 <= totalCoins h < TWO64 -> 0 <= origTotalVotes h ->
  origTotalVotes h = totalCoins h /\ totalCoins h <= INT64_MAX.
Proof.
  intros Hr H0. pose proof (i64_nonneg _ Hr H0) as He.
  pose proof (origTotalVotes_range h) as [_ Hmax].
  unfold origTotalVotes in *. split; [exact He|lia].
Qed.

(** C2: in the original scheme a successful run leaves [totalCoins]
    larger by the sum of the recorded payouts up to ledger version 7 (the
    votes of the winners being within the total), and larger by the
    inflation amount [totalCoins * INFLATION_RATE_TRILLIONTHS / TRILLION],
    once and whatever was paid, from ledger version 8 on. *)
Theorem totalCoins_after_success cfg l rows ps l' :
  isOrig cfg = true ->
  0 <= totalCoins (header l) < TWO64 ->
  doApply cfg l rows = Ok (INFLATION_SUCCESS ps, l') ->
  (ledgerVersion (header l) <= 7 -> votesWithin cfg l rows ->
   totalCoins (header l') = totalCoins (header l) + sumAmounts ps) /\
  (7 < ledgerVersion (header l) ->
   totalCoins (header l') = totalCoins (header l) + inflationAmountOf (header l) /\
   inflationAmountOf (header l) =
     totalCoins (header l) * INFLATION_RATE_TRILLIONTHS / TRILLION).
Proof.
  intros Ho Hr H.
  apply (orig_success _ _ _ _ _ Ho) in H as (_ & H0 & s & Hloop & -> & ->).
  destruct (origTotalVotes_exact _ Hr H0) as [Htv Hmax].
  pose proof (loop_result _ _ _ _ _ _ Hloop) as (Hps & _ & _ & _ & _ & Hver).
  pose proof (doleWinners_payouts _ _ _ _ _ _ Hloop) as (Hpos & Hsum0 & Hle).
  pose proof (doleWinners_Ok _ _ _ _ _ _ Hloop) as [Hs _].
  rewrite startFrame_orig in Hps, Hver, Hs, Hpos, Hsum0, Hle by exact Ho.
  simpl in Hps, Hver, Hs, Hpos, Hsum0, Hle.
  set (wps := winnerPayouts (amountToDoleOf cfg l) (totalVotesOf cfg l)
                (accounts l) (winnersOf cfg l rows)) in *.
  split.
  - intros Hv Hin. apply Hle in Hin.
    assert (amountToDoleOf cfg l <= INT64_MAX) as HA.
    { unfold amountToDoleOf. rewrite Ho. apply i64_range. }
    simpl. unfold origFinish. simpl. rewrite Hver.
    replace (7 <? ledgerVersion (header l)) with false by (symmetry; apply Z.ltb_ge; lia).
    simpl. rewrite Hps, Hs.
    replace (ledgerVersion (header l) <=? 7) with true by (symmetry; apply Z.leb_le; lia).
    rewrite fold_record_coins; simpl.
    + reflexivity.
    + lia.
    + apply positive_nonneg. exact Hpos.
    + range.
  - intros Hv.
    pose proof (inflationAmountOf_bounds _ H0) as Hia.
    split; [|unfold inflationAmountOf; rewrite Htv; reflexivity].
    simpl. unfold origFinish. simpl. rewrite Hver.
    replace (7 <? ledgerVersion (header l)) with true by (symmetry; apply Z.ltb_lt; lia).
    simpl. rewrite Hs.
    replace (ledgerVersion (header l) <=? 7) with false by (symmetry; apply Z.leb_gt; lia).
    simpl. rewrite fold_record_lcl_keep. simpl.
    apply u64_small. range.
Qed.

Lemma totalCoins_after_success_witness :
  (exists l',
     doApply configOrig ledgerOld rowsTwo =
       Ok (INFLATION_SUCCESS [mkPayout "GA" 171649800000], l') /\
     totalCoins (header l') = 1000000000000000 + 171649800000) /\
  (exists l',
     doApply configOrig ledgerDue rowsTwo =
       Ok (INFLATION_SUCCESS [mkPayout "GA" 171649800000], l') /\
     totalCoins (header l') = 1000000000000000 + 190721000000).
Proof.
  split.
  - eexists. split; [vm_compute; reflexivity|].
    apply (totalCoins_after_success configOrig ledgerOld rowsTwo
             [mkPayout "GA" 171649800000]).
    + reflexivity.
    + unfold TWO64. simpl. lia.
    + vm_compute. reflexivity.
    + simpl. lia.
    + unfold votesWithin. vm_compute. discriminate.
  - eexists. split; [vm_compute; reflexivity|].
    apply (totalCoins_after_success configOrig ledgerDue rowsTwo
             [mkPayout "GA" 171649800000]).
    + reflexivity.
    + unfold TWO64. simpl. lia.
    + vm_compute. reflexivity.
    + simpl. lia.
Defined.

(** ** Accounting for the pool *)

Lemma creditAll_is_Some ps : forall (m : gmap string Z) k,
  is_Some (creditAll m ps !! k) <-> is_Some (m !! k).
Proof.
  unfold creditAll.
  induction ps as [|p ps IH]; intros m k; simpl; [reflexivity|].
  rewrite IH. apply credit_is_Some.
Qed.

Lemma cbAmountToDole_le h :
  0 <= feePool h < TWO64 -> 0 <= cbAmountToDole h <= feePool h.
Proof.
  intros Hr. unfold cbAmountToDole. pose proof (u64_range (feePool h * 7)) as Hu.
  split; [apply Z.div_pos; lia|].
  apply Z.div_le_upper_bound; [lia|].
  destruct (Z_lt_le_dec (feePool h * 7) TWO64) as [Hs|Hb].
  - rewrite u64_small by lia. lia.
  - lia.
Qed.

Lemma cbDole_eq cfg l rows :
  isOrig cfg = false ->
  cbDole cfg l rows =
  doleWinners false (amountToDoleOf cfg l) (totalVotesOf cfg l)
    (winnersOf cfg l rows) (startFrame cfg l).
Proof.
  intros Ho. unfold cbDole, amountToDoleOf, totalVotesOf, winnersOf, startFrame.
  rewrite Ho. reflexivity.
Qed.

(** The frame at the end of the loop of the common budget scheme. *)
Lemma cb_loop_frame cfg l rows s :
  isOrig cfg = false ->
  0 <= feePool (header l) <= INT64_MAX ->
  votesWithin cfg l rows ->
  doleWinners false (amountToDoleOf cfg l) (totalVotesOf cfg l)
    (winnersOf cfg l rows) (startFrame cfg l) = Ok s ->
  let wps := winnerPayouts (amountToDoleOf cfg l) (totalVotesOf cfg l)
               (accounts l) (winnersOf cfg l rows) in
  payouts s = wps /\ db s = creditAll (accounts l) wps /\
  leftAfterDole s = feePool (header l) - sumAmounts wps /\
  0 <= sumAmounts wps <= feePool (header l).
Proof.
  intros Ho Hfp Hin Hloop wps.
  pose proof (loop_result _ _ _ _ _ _ Hloop) as (Hps & Hdb & _).
  pose proof (doleWinners_payouts _ _ _ _ _ _ Hloop) as (Hpos & Hsum0 & Hle).
  pose proof (doleWinners_Ok _ _ _ _ _ _ Hloop) as [Hs _].
  rewrite startFrame_cb in Hps, Hdb, Hs, Hpos, Hsum0, Hle by exact Ho.
  simpl in Hps, Hdb, Hs, Hpos, Hsum0, Hle. fold wps in Hps, Hdb, Hs, Hpos, Hsum0, Hle.
  apply Hle in Hin.
  assert (amountToDoleOf cfg l <= feePool (header l)) as HA.
  { unfold amountToDoleOf. rewrite Ho.
    assert (0 <= feePool (header l) < TWO64) as Hr
      by range.
    pose proof (cbAmountToDole_le _ Hr) as Hc.
    rewrite i64_small; [lia|]. range. }
  assert (i64 (feePool (header l)) = feePool (header l)) as Hleft.
  { apply i64_small. range. }
  repeat split; try assumption; try lia.
  rewrite Hs. rewrite fold_record_left; simpl; rewrite ?Hleft.
  - reflexivity.
  - apply positive_nonneg. exact Hpos.
  - lia.
  - range.
Qed.

Lemma cb_loop_lcl cfg l rows s :
  isOrig cfg = false ->
  doleWinners false (amountToDoleOf cfg l) (totalVotesOf cfg l)
    (winnersOf cfg l rows) (startFrame cfg l) = Ok s ->
  lcl s = setFeePool (header l) 0.
Proof.
  intros Ho Hloop. apply doleWinners_Ok in Hloop as [-> _].
  simpl. rewrite fold_record_lcl_keep, startFrame_cb by exact Ho. reflexivity.
Qed.

(** C1: on a ledger whose pool is representable and whose winners' votes
    are within the total, a successful run accounts for the pool as
    follows.  In the original scheme the recorded payouts plus the amount
    put back in the fee pool equal [inflationAmount + feePool].  In the
    common budget scheme the winner payouts, which are what the winner
    loop records and credits, plus what is left after the winner loop
    equal the fee pool the run started from, and the fee pool ends at
    zero.  When the common budget account exists that leftover is added
    to its balance and recorded last, so that the recorded payouts sum to
    the fee pool; when it does not exist the leftover is added to no
    balance, the balances being those at the end of the winner loop, and
    the recorded payouts sum to the fee pool less that leftover. *)
Theorem pool_accounted_up_to_missing_sink cfg l rows ps l' :
  poolRepresentable cfg l ->
  votesWithin cfg l rows ->
  doApply cfg l rows = Ok (INFLATION_SUCCESS ps, l') ->
  if isOrig cfg
  then sumAmounts ps + feePool (header l') =
       inflationAmountOf (header l) + feePool (header l)
  else exists s,
         cbDole cfg l rows = Ok s /\
         sumAmounts (payouts s) + leftAfterDole s = feePool (header l) /\
         payouts s = winnerPayouts (amountToDoleOf cfg l) (totalVotesOf cfg l)
                       (accounts l) (winnersOf cfg l rows) /\
         db s = creditAll (accounts l) (payouts s) /\
         feePool (header l') = 0 /\
         match accounts l !! COMMON_BUDGET_ACCOUNT_ID cfg with
         | Some _ =>
             ps = payouts s ++ [mkPayout (COMMON_BUDGET_ACCOUNT_ID cfg) (leftAfterDole s)] /\
             sumAmounts ps = feePool (header l) /\
             exists b, db s !! COMMON_BUDGET_ACCOUNT_ID cfg = Some b /\
               accounts l' =
               <[COMMON_BUDGET_ACCOUNT_ID cfg := b + leftAfterDole s]> (db s)
         | None =>
             ps = payouts s /\
             sumAmounts ps = feePool (header l) - leftAfterDole s /\
             accounts l' = db s
         end.
Proof.
  intros [Hfp0 Hrep] Hin H. destruct (isOrig cfg) eqn:Ho.
  - apply (orig_success _ _ _ _ _ Ho) in H as (_ & H0 & s & Hloop & -> & ->).
    pose proof (inflationAmountOf_bounds _ H0) as Hia.
    assert (amountToDoleOf cfg l = inflationAmountOf (header l) + feePool (header l)) as HA.
    { unfold amountToDoleOf, origAmountToDole. rewrite Ho.
      rewrite u64_small by range. apply i64_small. range. }
    pose proof (loop_result _ _ _ _ _ _ Hloop) as (Hps & _ & Hfee & _).
    pose proof (doleWinners_payouts _ _ _ _ _ _ Hloop) as (Hpos & Hsum0 & Hle).
    pose proof (doleWinners_Ok _ _ _ _ _ _ Hloop) as [Hs _].
    rewrite startFrame_orig in Hps, Hfee, Hs, Hpos, Hsum0, Hle by exact Ho.
    simpl in Hps, Hfee, Hs, Hpos, Hsum0, Hle.
    set (wps := winnerPayouts (amountToDoleOf cfg l) (totalVotesOf cfg l)
                  (accounts l) (winnersOf cfg l rows)) in *.
    apply Hle in Hin.
    assert (leftAfterDole s = amountToDoleOf cfg l - sumAmounts wps) as Hleft.
    { rewrite Hs. rewrite fold_record_left; simpl.
      - reflexivity.
      - apply positive_nonneg. exact Hpos.
      - lia.
      - range. }
    assert (feePool (origFinish (inflationAmountOf (header l)) s) = leftAfterDole s) as Hback.
    { unfold origFinish. simpl.
      destruct (7 <? ledgerVersion (lcl s)); simpl; rewrite Hfee; simpl;
        apply u64_small; range. }
    simpl. rewrite Hback, Hleft, Hps, HA. lia.
  - apply (cb_success _ _ _ _ _ Ho) in H as (Ht & s & s' & Hloop & Hc & -> & ->).
    exists s. split; [rewrite (cbDole_eq _ _ _ Ho); exact Hloop|].
    assert (0 <= feePool (header l) <= INT64_MAX) as Hfp by lia.
    destruct (cb_loop_frame _ _ _ _ Ho Hfp Hin Hloop) as (Hps & Hdb & Hleft & Hsum).
    split; [rewrite Hps, Hleft; lia|].
    split; [exact Hps|].
    rewrite <- Hps in Hdb.
    split; [exact Hdb|].
    pose proof (creditAll_is_Some (payouts s) (accounts l) (COMMON_BUDGET_ACCOUNT_ID cfg))
      as Hdom.
    rewrite <- Hdb in Hdom.
    apply cbCredit_Ok in Hc as (Hl & _ & Hcase).
    split; [simpl; rewrite Hl, (cb_loop_lcl _ _ _ _ Ho Hloop); reflexivity|].
    simpl.
    destruct Hcase as [(Hnone & Hdb' & Hps')|(b & Hb & _ & Hdb' & Hps')].
    + destruct (accounts l !! COMMON_BUDGET_ACCOUNT_ID cfg) as [b0|] eqn:Hacc.
      * exfalso. destruct Hdom as [_ Hd]. destruct Hd as [b Hb]; [eexists; reflexivity|].
        congruence.
      * split; [exact Hps'|]. split; [|exact Hdb'].
        rewrite Hps', Hps in *. lia.
    + destruct (accounts l !! COMMON_BUDGET_ACCOUNT_ID cfg) as [b0|] eqn:Hacc.
      * split; [exact Hps'|]. split.
        { rewrite Hps', sumAmounts_app. simpl. rewrite Hps in *. lia. }
        exists b. split; [exact Hb|exact Hdb'].
      * exfalso. destruct Hdom as [Hd _]. destruct Hd as [b1 [=]]. eexists; exact Hb.
Qed.

Lemma pool_accounted_up_to_missing_sink_witness :
  (exists l',
     doApply configOrig ledgerDue rowsTwo =
       Ok (INFLATION_SUCCESS [mkPayout "GA" 171649800000], l') /\
     171649800000 + feePool (header l') = 190721000000 + 1000000) /\
  (exists l' s,
     doApply configBudget ledgerDue rowsOne =
       Ok (INFLATION_SUCCESS [mkPayout "GA" 699999; mkPayout "GB" 300001], l') /\
     cbDole configBudget ledgerDue rowsOne = Ok s /\
     sumAmounts (payouts s) + leftAfterDole s = 1000000) /\
  (exists l' s,
     doApply configNoSink ledgerDue rowsOne =
       Ok (INFLATION_SUCCESS [mkPayout "GA" 630000], l') /\
     cbDole configNoSink ledgerDue rowsOne = Ok s /\
     leftAfterDole s = 370000 /\
     accounts l' = db s /\
     db s = creditAll accountsDue [mkPayout "GA" 630000] /\
     feePool (header l') = 0).
Proof.
  split; [|split].
  - eexists. split; [vm_compute; reflexivity|].
    apply (pool_accounted_up_to_missing_sink configOrig ledgerDue rowsTwo
             [mkPayout "GA" 171649800000]).
    + unfold poolRepresentable. vm_compute. split; discriminate.
    + unfold votesWithin. vm_compute. discriminate.
    + vm_compute. reflexivity.
  - eexists.
    assert (doApply configBudget ledgerDue rowsOne =
            Ok (INFLATION_SUCCESS [mkPayout "GA" 699999; mkPayout "GB" 300001],
                mkLedger (mkHeader 1000000000000000 0 3 1404173400 9)
                  (<["GB" := 99999998300001]> (<["GA" := 900000000699999]> accountsDue))))
      as Hrun by (vm_compute; reflexivity).
    edestruct (pool_accounted_up_to_missing_sink configBudget ledgerDue rowsOne)
      as (s & Hs & Hsum & _).
    + unfold poolRepresentable. vm_compute. split; discriminate.
    + unfold votesWithin. vm_compute. discriminate.
    + exact Hrun.
    + exists s. split; [exact Hrun|]. split; [exact Hs|exact Hsum].
  - exists (mkLedger (mkHeader 1000000000000000 0 3 1404173400 9)
              (<["GA" := 900000000630000]> accountsDue)).
    assert (doApply configNoSink ledgerDue rowsOne =
            Ok (INFLATION_SUCCESS [mkPayout "GA" 630000],
                mkLedger (mkHeader 1000000000000000 0 3 1404173400 9)
                  (<["GA" := 900000000630000]> accountsDue)))
      as Hrun by (vm_compute; reflexivity).
    assert (poolRepresentable configNoSink ledgerDue) as Hp
      by (unfold poolRepresentable; vm_compute; split; discriminate).
    assert (votesWithin configNoSink ledgerDue rowsOne) as Hv
      by (unfold votesWithin; vm_compute; discriminate).
    assert (accounts ledgerDue !! COMMON_BUDGET_ACCOUNT_ID configNoSink = None) as Hn
      by (vm_compute; reflexivity).
    pose proof (pool_accounted_up_to_missing_sink configNoSink ledgerDue rowsOne
                  _ _ Hp Hv Hrun) as Hacc.
    change (isOrig configNoSink) with false in Hacc. cbv iota in Hacc.
    destruct Hacc as (s & Hs & Hsum & _ & Hdb & Hfee & Hcase).
    rewrite Hn in Hcase. destruct Hcase as (Hps & Hleft & Hl').
    exists s. rewrite <- Hps in Hdb. rewrite <- Hps in Hsum.
    change (sumAmounts [mkPayout "GA" 630000]) with 630000 in Hsum.
    change (feePool (header ledgerDue)) with 1000000 in Hsum.
    split; [exact Hrun|]. split; [exact Hs|]. split; [lia|].
    split; [exact Hl'|]. split; [exact Hdb|exact Hfee].
Defined.

(** C1 fails as stated, whichever leftover is meant.  When the common
    budget account does not exist, of a fee pool of 1000000 the one
    winner is paid 630000, nothing is left in [leftAfterDole] at the
    commit, and the fee pool and the other balances hold nothing of the
    remaining 370000.  When the account exists, the 300001 left after the
    winner loop are themselves among the recorded payouts, which already
    sum to the fee pool. *)
Lemma pool_unaccounted_as_stated :
  (doApply configNoSink ledgerDue rowsOne =
     Ok (INFLATION_SUCCESS [mkPayout "GA" 630000],
         mkLedger (mkHeader 1000000000000000 0 3 1404173400 9)
                  (<["GA" := 900000000630000]> accountsDue)) /\
   poolRepresentable configNoSink ledgerDue /\
   votesWithin configNoSink ledgerDue rowsOne /\
   ~ poolAccountedAtCommit configNoSink ledgerDue rowsOne) /\
  (doApply configBudget ledgerDue rowsOne =
     Ok (INFLATION_SUCCESS [mkPayout "GA" 699999; mkPayout "GB" 300001],
         mkLedger (mkHeader 1000000000000000 0 3 1404173400 9)
                  (<["GB" := 99999998300001]> (<["GA" := 900000000699999]> accountsDue))) /\
   poolRepresentable configBudget ledgerDue /\
   votesWithin configBudget ledgerDue rowsOne /\
   ~ poolAccountedAtCredit configBudget ledgerDue rowsOne).
Proof.
  assert (doApply configNoSink ledgerDue rowsOne =
    Ok (INFLATION_SUCCESS [mkPayout "GA" 630000],
        mkLedger (mkHeader 1000000000000000 0 3 1404173400 9)
                 (<["GA" := 900000000630000]> accountsDue))) as Hrun1
    by (vm_compute; reflexivity).
  assert (doApply configBudget ledgerDue rowsOne =
    Ok (INFLATION_SUCCESS [mkPayout "GA" 699999; mkPayout "GB" 300001],
        mkLedger (mkHeader 1000000000000000 0 3 1404173400 9)
                 (<["GB" := 99999998300001]> (<["GA" := 900000000699999]> accountsDue))))
    as Hrun2 by (vm_compute; reflexivity).
  split; (split; [assumption|]);
    (split; [unfold poolRepresentable; vm_compute; split; discriminate|]);
    (split; [unfold votesWithin; vm_compute; discriminate|]).
  - intros Hacc. specialize (Hacc _ _ Hrun1). simpl in Hacc.
    destruct Hacc as (s & Hs & Hsum).
    assert (exists m, cbRun configNoSink ledgerDue rowsOne =
              Ok (mkFrame (mkHeader 1000000000000000 0 3 1404173400 9) m
                    [mkPayout "GA" 630000] 0)) as [m Hm]
      by (eexists; vm_compute; reflexivity).
    rewrite Hm in Hs. injection Hs as <-. simpl in Hsum. discriminate Hsum.
  - intros Hacc. specialize (Hacc _ _ Hrun2). simpl in Hacc.
    destruct Hacc as (s & Hs & Hsum).
    assert (exists m, cbDole configBudget ledgerDue rowsOne =
              Ok (mkFrame (mkHeader 1000000000000000 0 2 1404173400 9) m
                    [mkPayout "GA" 699999] 300001)) as [m Hm]
      by (eexists; vm_compute; reflexivity).
    rewrite Hm in Hs. injection Hs as <-. simpl in Hsum. discriminate Hsum.
Qed.

(** ** The common budget scheme: supply and sink *)

(** C7: the common budget scheme never changes [totalCoins]; and, the fee
    pool being representable and the votes of the winners within the
    total, a successful run empties the fee pool and credits the common
    budget account, when it exists, with exactly the fee pool it started
    from less the winner payouts; when the account does not exist the run
    succeeds all the same and that amount is credited to no account: the
    balances are those the winner payouts alone produce, and only these
    payouts are recorded. *)
Theorem commonBudget_supply_and_sink cfg l rows :
  isOrig cfg = false ->
  (forall r l', doApply cfg l rows = Ok (r, l') ->
                totalCoins (header l') = totalCoins (header l)) /\
  (forall ps l',
     0 <= feePool (header l) <= INT64_MAX ->
     votesWithin cfg l rows ->
     doApply cfg l rows = Ok (INFLATION_SUCCESS ps, l') ->
     let wps := winnerPayouts (amountToDoleOf cfg l) (totalVotesOf cfg l)
                  (accounts l) (winnersOf cfg l rows) in
     let paid := creditAll (accounts l) wps in
     feePool (header l') = 0 /\
     match accounts l !! COMMON_BUDGET_ACCOUNT_ID cfg with
     | Some _ =>
         exists b, paid !! COMMON_BUDGET_ACCOUNT_ID cfg = Some b /\
           accounts l' =
           <[COMMON_BUDGET_ACCOUNT_ID cfg := b + (feePool (header l) - sumAmounts wps)]> paid
     | None => accounts l' = paid /\ ps = wps
     end).
Proof.
  intros Ho. split.
  - intros r l' H. destruct (notTime (header l)) eqn:Ht.
    + rewrite (doApply_notTime _ _ _ Ht) in H. injection H as <- <-. reflexivity.
    + destruct (doApply_due _ _ _ _ _ Ht H) as [ps ->].
      apply (cb_success _ _ _ _ _ Ho) in H as (_ & s & s' & Hloop & Hc & _ & ->).
      apply cbCredit_Ok in Hc as (-> & _). simpl.
      rewrite (cb_loop_lcl _ _ _ _ Ho Hloop). reflexivity.
  - intros ps l' Hfp Hin H wps paid.
    apply (cb_success _ _ _ _ _ Ho) in H as (_ & s & s' & Hloop & Hc & -> & ->).
    destruct (cb_loop_frame _ _ _ _ Ho Hfp Hin Hloop) as (Hps & Hdb & Hleft & _).
    fold wps in Hps, Hdb, Hleft. fold paid in Hdb.
    pose proof (creditAll_is_Some wps (accounts l) (COMMON_BUDGET_ACCOUNT_ID cfg)) as Hdom.
    fold paid in Hdom. simpl.
    apply cbCredit_Ok in Hc as (Hl & _ & Hcase).
    split; [rewrite Hl, (cb_loop_lcl _ _ _ _ Ho Hloop); reflexivity|].
    destruct Hcase as [(Hnone & Hdb' & Hps')|(b & Hb & _ & Hdb' & _)];
      rewrite Hdb in *.
    + destruct (accounts l !! COMMON_BUDGET_ACCOUNT_ID cfg) as [b0|] eqn:Hacc.
      * exfalso. destruct Hdom as [_ Hd]. destruct Hd as [b Hb]; [eexists; reflexivity|].
        congruence.
      * split; [exact Hdb'|]. rewrite Hps'. exact Hps.
    + destruct (accounts l !! COMMON_BUDGET_ACCOUNT_ID cfg) as [b0|] eqn:Hacc.
      * exists b. split; [exact Hb|]. rewrite Hdb', Hleft. reflexivity.
      * exfalso. destruct Hdom as [Hd _]. destruct Hd as [b1 [=]]. eexists; exact Hb.
Qed.

Lemma commonBudget_supply_and_sink_witness :
  (exists l',
     doApply configBudget ledgerDue rowsOne =
       Ok (INFLATION_SUCCESS [mkPayout "GA" 699999; mkPayout "GB" 300001], l') /\
     totalCoins (header l') = 1000000000000000 /\
     feePool (header l') = 0 /\
     accounts l' =
       <["GB" := 99999998000000 + (1000000 - 699999)]>
         (<["GA" := 900000000699999]> accountsDue)) /\
  (exists l',
     doApply configNoSink ledgerDue rowsOne =
       Ok (INFLATION_SUCCESS [mkPayout "GA" 630000], l') /\
     accounts l' = <["GA" := 900000000630000]> accountsDue).
Proof.
  split.
  - eexists. split; [vm_compute; reflexivity|].
    destruct (commonBudget_supply_and_sink configBudget ledgerDue rowsOne eq_refl)
      as [Hcoins Hsink].
    split; [eapply Hcoins; vm_compute; reflexivity|].
    edestruct (Hsink [mkPayout "GA" 699999; mkPayout "GB" 300001]) as [Hfee Hacc].
    + unfold INT64_MAX. simpl. lia.
    + unfold votesWithin. vm_compute. discriminate.
    + vm_compute. reflexivity.
    + split; [exact Hfee|]. destruct Hacc as (b & Hb & Hacc).
      rewrite Hacc. vm_compute in Hb. injection Hb as <-. vm_compute. reflexivity.
  - eexists. split; [vm_compute; reflexivity|].
    destruct (commonBudget_supply_and_sink configNoSink ledgerDue rowsOne eq_refl)
      as [_ Hsink].
    edestruct (Hsink [mkPayout "GA" 630000]) as [_ [Hacc _]].
    + unfold INT64_MAX. simpl. lia.
    + unfold votesWithin. vm_compute. discriminate.
    + vm_compute. reflexivity.
    + rewrite Hacc. vm_compute. reflexivity.
Defined.

(** C10: in the common budget scheme, when the common budget account
    exists, a successful run records the winner payouts followed by one
    last entry for that account; under a representable fee pool and votes
    within the total, the amount of that entry is the fee pool the run
    started from less the winner payouts. *)
Theorem commonBudget_entry_is_last cfg l rows ps l' :
  isOrig cfg = false ->
  is_Some (accounts l !! COMMON_BUDGET_ACCOUNT_ID cfg) ->
  doApply cfg l rows = Ok (INFLATION_SUCCESS ps, l') ->
  let wps := winnerPayouts (amountToDoleOf cfg l) (totalVotesOf cfg l)
               (accounts l) (winnersOf cfg l rows) in
  exists c,
    ps = wps ++ [mkPayout (COMMON_BUDGET_ACCOUNT_ID cfg) c] /\
    (0 <= feePool (header l) <= INT64_MAX -> votesWithin cfg l rows ->
     c = feePool (header l) - sumAmounts wps).
Proof.
  intros Ho Hsink H wps.
  apply (cb_success _ _ _ _ _ Ho) in H as (_ & s & s' & Hloop & Hc & -> & _).
  pose proof (loop_result _ _ _ _ _ _ Hloop) as (Hps & Hdb & _).
  rewrite startFrame_cb in Hps, Hdb by exact Ho. simpl in Hps, Hdb.
  fold wps in Hps, Hdb.
  apply cbCredit_Ok in Hc as (_ & _ & [(Hnone & _)|(b & _ & _ & _ & Hps')]).
  - exfalso. rewrite Hdb in Hnone.
    assert (is_Some (creditAll (accounts l) wps !! COMMON_BUDGET_ACCOUNT_ID cfg))
      as [b Hb] by (apply creditAll_is_Some; exact Hsink).
    congruence.
  - exists (leftAfterDole s). split; [rewrite Hps', Hps; reflexivity|].
    intros Hfp Hin.
    destruct (cb_loop_frame _ _ _ _ Ho Hfp Hin Hloop) as (_ & _ & Hleft & _).
    exact Hleft.
Qed.

Lemma commonBudget_entry_is_last_witness :
  exists l' c,
    doApply configBudget ledgerDue rowsOne =
      Ok (INFLATION_SUCCESS [mkPayout "GA" 699999; mkPayout "GB" 300001], l') /\
    [mkPayout "GA" 699999; mkPayout "GB" 300001] =
      [mkPayout "GA" 699999] ++ [mkPayout "GB" c] /\
    c = 1000000 - 699999.
Proof.
  eexists.
  assert (doApply configBudget ledgerDue rowsOne =
          Ok (INFLATION_SUCCESS [mkPayout "GA" 699999; mkPayout "GB" 300001],
              mkLedger (mkHeader 1000000000000000 0 3 1404173400 9)
                (<["GB" := 99999998300001]> (<["GA" := 900000000699999]> accountsDue))))
    as Hrun by (vm_compute; reflexivity).
  destruct (commonBudget_entry_is_last configBudget ledgerDue rowsOne _ _ eq_refl
              (ex_intro _ 99999998000000 eq_refl) Hrun) as (c & Hps & Hc).
  exists c. split; [exact Hrun|]. split; [exact Hps|].
  apply Hc.
  - unfold INT64_MAX. simpl. lia.
  - unfold votesWithin. vm_compute. discriminate.
Defined.

(** ** The share of a winner *)

Lemma success_loop cfg l rows ps l' :
  doApply cfg l rows = Ok (INFLATION_SUCCESS ps, l') ->
  exists s sink,
    doleWinners (isOrig cfg) (amountToDoleOf cfg l) (totalVotesOf cfg l)
      (winnersOf cfg l rows) (startFrame cfg l) = Ok s /\
    ps = payouts s ++ sink /\
    (sink = [] \/
     isOrig cfg = false /\
     sink = [mkPayout (COMMON_BUDGET_ACCOUNT_ID cfg) (leftAfterDole s)]).
Proof.
  intros H. destruct (isOrig cfg) eqn:Ho.
  - apply (orig_success _ _ _ _ _ Ho) in H as (_ & _ & s & Hloop & -> & _).
    exists s, []. rewrite app_nil_r. repeat split; [exact Hloop|left; reflexivity].
  - apply (cb_success _ _ _ _ _ Ho) in H as (_ & s & s' & Hloop & Hc & -> & _).
    apply cbCredit_Ok in Hc as (_ & _ & [(_ & _ & Hps)|(b & _ & _ & _ & Hps)]).
    + exists s, []. rewrite app_nil_r. repeat split; [exact Hloop|exact Hps|left; reflexivity].
    + exists s, [mkPayout (COMMON_BUDGET_ACCOUNT_ID cfg) (leftAfterDole s)].
      repeat split; [exact Hloop|exact Hps|right; split; reflexivity].
Qed.

(** C5: in a successful run of either scheme, the payout computed for
    every enumerated winner is the quotient
    [amountToDole * votes / totalVotes] of the exact product, rounded
    down, and is not negative; the recorded payouts are, in order, those
    of the winners whose quotient is not zero and whose destination
    exists (followed in the common budget scheme by at most the entry of
    the common budget account), each strictly positive; and the
    iteration of a winner whose quotient is zero returns the frame
    (header, balances, payouts and leftover) it was given. *)
Theorem winner_payout_is_floor_share cfg l rows ps l' :
  doApply cfg l rows = Ok (INFLATION_SUCCESS ps, l') ->
  let A := amountToDoleOf cfg l in
  let TV := totalVotesOf cfg l in
  let ws := winnersOf cfg l rows in
  Forall (fun w => bigDivide A (mVotes w) TV = Ok (A * mVotes w / TV) /\
                   0 <= A * mVotes w / TV) ws /\
  (exists sink,
     ps = winnerPayouts A TV (accounts l) ws ++ sink /\
     (sink = [] \/
      isOrig cfg = false /\ exists c, sink = [mkPayout (COMMON_BUDGET_ACCOUNT_ID cfg) c])) /\
  Forall (fun p => 0 < amount p /\
                   exists w, w ∈ ws /\ destination p = mInflationDest w /\
                             amount p = A * mVotes w / TV)
         (winnerPayouts A TV (accounts l) ws) /\
  (forall w mint s, w ∈ ws -> A * mVotes w / TV = 0 -> doleWinner mint A TV w s = Ok s).
Proof.
  intros H A TV ws.
  destruct (success_loop _ _ _ _ _ H) as (s & sink & Hloop & Hps & Hsink).
  fold A TV ws in Hloop.
  pose proof (doleWinners_Ok _ _ _ _ _ _ Hloop) as [_ Hall].
  pose proof (loop_result _ _ _ _ _ _ Hloop) as (Hpay & _).
  pose proof (doleWinners_payouts _ _ _ _ _ _ Hloop) as (Hpos & _).
  assert (db (startFrame cfg l) = accounts l) as Hdb
    by (unfold startFrame; destruct (isOrig cfg); reflexivity).
  assert (payouts (startFrame cfg l) = []) as Hnil
    by (unfold startFrame; destruct (isOrig cfg); reflexivity).
  rewrite Hdb in Hpay, Hpos. rewrite Hnil in Hpay. simpl in Hpay.
  split; [|split; [|split]].
  - eapply Forall_impl; [exact Hall|]. intros w Hw. simpl in Hw.
    split; [exact Hw|]. apply bigDivide_Ok in Hw. unfold share in Hw. lia.
  - exists sink. split; [rewrite Hps, Hpay; reflexivity|].
    destruct Hsink as [->|[Ho ->]]; [left; reflexivity|].
    right. split; [exact Ho|]. eexists; reflexivity.
  - apply Forall_and. split; [exact Hpos|].
    eapply Forall_impl; [apply winnerPayouts_elem|].
    intros p (w & Hin & Hd & Ha & _). exists w. repeat split; assumption.
  - intros w mint s0 Hin Hz. apply doleWinner_zero.
    rewrite Forall_forall in Hall. rewrite (Hall w Hin). unfold share.
    fold A TV. rewrite Hz. reflexivity.
Qed.

Lemma winner_payout_is_floor_share_witness :
  exists l',
    doApply configBudget ledgerDue rowsDust =
      Ok (INFLATION_SUCCESS [mkPayout "GA" 699999; mkPayout "GB" 300001], l') /\
    bigDivide 700000 900000000000000 900000001000000 = Ok 699999 /\
    bigDivide 700000 1000000 900000001000000 = Ok 0 /\
    winnerPayouts 700000 900000001000000 (accounts ledgerDue) rowsDust =
      [mkPayout "GA" 699999].
Proof.
  eexists.
  assert (doApply configBudget ledgerDue rowsDust =
          Ok (INFLATION_SUCCESS [mkPayout "GA" 699999; mkPayout "GB" 300001],
              mkLedger (mkHeader 1000000000000000 0 3 1404173400 9)
                (<["GB" := 99999998300001]> (<["GA" := 900000000699999]> accountsDue))))
    as Hrun by (vm_compute; reflexivity).
  destruct (winner_payout_is_floor_share configBudget ledgerDue rowsDust _ _ Hrun)
    as (Hall & _ & _ & _).
  split; [exact Hrun|].
  apply Forall_cons_1 in Hall as [[Ha _] Hall].
  apply Forall_cons_1 in Hall as [[Hd _] _].
  split; [exact Ha|]. split; [exact Hd|]. vm_compute. reflexivity.
Defined.

(** ** Overflowing credits *)

Lemma cbCredit_overflow cfg s b :
  db s !! COMMON_BUDGET_ACCOUNT_ID cfg = Some b ->
  addBalance b (leftAfterDole s) = None ->
  cbCredit cfg s = Throw CommonBudgetOverflow.
Proof.
  intros Hacc Hadd. unfold cbCredit, loadAccount, fromStrKey.
  rewrite Hacc, Hadd. reflexivity.
Qed.

(** C4: past the time gate, in either scheme, if the winners before some
    winner are paid without failure and the checked addition of that
    winner's non-zero payout to the balance of its existing destination
    overflows, the run throws the destination overflow and returns no
    result; and in the common budget scheme, if the winner loop returns
    and the checked addition of what is left to the balance of the
    existing common budget account overflows, the run throws the common
    budget overflow and returns no result. *)
Theorem credit_overflow_is_fatal cfg l rows :
  notTime (header l) = false ->
  (forall pre w post s t b,
     winnersOf cfg l rows = pre ++ w :: post ->
     doleWinners (isOrig cfg) (amountToDoleOf cfg l) (totalVotesOf cfg l) pre
       (startFrame cfg l) = Ok s ->
     bigDivide (amountToDoleOf cfg l) (mVotes w) (totalVotesOf cfg l) = Ok t ->
     t <> 0 ->
     db s !! mInflationDest w = Some b ->
     addBalance b t = None ->
     doApply cfg l rows = Throw DestinationOverflow) /\
  (forall s b,
     isOrig cfg = false ->
     doleWinners false (amountToDoleOf cfg l) (totalVotesOf cfg l)
       (winnersOf cfg l rows) (startFrame cfg l) = Ok s ->
     db s !! COMMON_BUDGET_ACCOUNT_ID cfg = Some b ->
     addBalance b (leftAfterDole s) = None ->
     doApply cfg l rows = Throw CommonBudgetOverflow).
Proof.
  intros Ht. split.
  - intros pre w post s t b Hws Hpre Hdiv Hnz Hacc Hadd.
    pose proof (doleWinner_overflow (isOrig cfg) _ _ _ _ _ _ Hdiv Hnz Hacc Hadd) as Hstep.
    assert (doleWinners (isOrig cfg) (amountToDoleOf cfg l) (totalVotesOf cfg l)
              (winnersOf cfg l rows) (startFrame cfg l) = Throw DestinationOverflow) as Hloop.
    { rewrite Hws, doleWinners_app, Hpre. simpl. rewrite Hstep. reflexivity. }
    destruct (isOrig cfg) eqn:Ho.
    + assert (0 <= origTotalVotes (header l)) as H0.
      { apply bigDivide_Ok in Hdiv as (_ & _ & Hpos & _).
        unfold totalVotesOf in Hpos. rewrite Ho in Hpos. lia. }
      rewrite (orig_run _ _ _ Ho Ht H0), Hloop. reflexivity.
    + rewrite (cb_run _ _ _ Ho Ht), Hloop. reflexivity.
  - intros s b Ho Hloop Hacc Hadd.
    rewrite (cb_run _ _ _ Ho Ht), Hloop, (cbCredit_overflow _ _ _ Hacc Hadd).
    reflexivity.
Qed.

Lemma credit_overflow_is_fatal_witness :
  doApply configOrig ledgerFull rowsOne = Throw DestinationOverflow /\
  doApply configBudget ledgerFull rowsOne = Throw DestinationOverflow /\
  doApply configPlain ledgerFullSink rowsOne = Throw CommonBudgetOverflow.
Proof.
  split; [|split].
  - destruct (credit_overflow_is_fatal configOrig ledgerFull rowsOne eq_refl) as [Hw _].
    apply (Hw [] (mkVotes 900000000000000 "GA") [] (startFrame configOrig ledgerFull)
              171649800000 INT64_MAX).
    + vm_compute. reflexivity.
    + reflexivity.
    + vm_compute. reflexivity.
    + discriminate.
    + vm_compute. reflexivity.
    + vm_compute. reflexivity.
  - destruct (credit_overflow_is_fatal configBudget ledgerFull rowsOne eq_refl) as [Hw _].
    apply (Hw [] (mkVotes 900000000000000 "GA") [] (startFrame configBudget ledgerFull)
              699999 INT64_MAX).
    + vm_compute. reflexivity.
    + reflexivity.
    + vm_compute. reflexivity.
    + discriminate.
    + vm_compute. reflexivity.
    + vm_compute. reflexivity.
  - destruct (credit_overflow_is_fatal configPlain ledgerFullSink rowsOne eq_refl) as [_ Hs].
    apply (Hs (mkFrame (mkHeader 1000000000000000 0 2 1404173400 9)
                 (<["GA" := 900000000630000]> (<["GB" := INT64_MAX]> accountsDue))
                 [mkPayout "GA" 630000] 370000) INT64_MAX).
    + reflexivity.
    + vm_compute. reflexivity.
    + vm_compute. reflexivity.
    + vm_compute. reflexivity.
Defined.

(** ** Runs without votes *)

(** C6: neither scheme tests the total of votes.  Past the time gate, a
    run whose total of votes is not positive and which enumerates at
    least one winner throws the undefined division of the multiply-divide
    primitive and returns no result.  A run whose total of votes is not
    positive and which enumerates no winner is decided by something
    else.  In the original scheme it throws the same undefined division,
    at the threshold, when the total is negative, and when the total is
    zero it returns success with no payout and the balances it started
    from.  In the common budget scheme it returns success with no payout
    and the same balances when the common budget account does not exist;
    when the account exists it throws the common budget overflow if the
    checked addition of the fee pool to its balance overflows, and
    otherwise returns success with that one credit recorded and made. *)
Theorem nonpositive_votes_fail_on_first_winner cfg l rows :
  notTime (header l) = false ->
  totalVotesOf cfg l <= 0 ->
  (winnersOf cfg l rows <> [] ->
   doApply cfg l rows = Throw BigDivideUndefined) /\
  (winnersOf cfg l rows = [] ->
   if isOrig cfg
   then (totalVotesOf cfg l < 0 ->
         doApply cfg l rows = Throw BigDivideUndefined) /\
        (totalVotesOf cfg l = 0 ->
         exists l', doApply cfg l rows = Ok (INFLATION_SUCCESS [], l') /\
                    accounts l' = accounts l)
   else match accounts l !! COMMON_BUDGET_ACCOUNT_ID cfg with
        | None =>
            exists l', doApply cfg l rows = Ok (INFLATION_SUCCESS [], l') /\
                       accounts l' = accounts l
        | Some b =>
            match addBalance b (i64 (feePool (header l))) with
            | None => doApply cfg l rows = Throw CommonBudgetOverflow
            | Some b' =>
                exists l',
                  doApply cfg l rows =
                    Ok (INFLATION_SUCCESS
                          [mkPayout (COMMON_BUDGET_ACCOUNT_ID cfg)
                                    (i64 (feePool (header l)))], l') /\
                  accounts l' = <[COMMON_BUDGET_ACCOUNT_ID cfg := b']> (accounts l)
            end
        end).
Proof.
  intros Ht HTV. split.
  - intros Hne. destruct (isOrig cfg) eqn:Ho.
    + assert (totalVotesOf cfg l = origTotalVotes (header l)) as Htv
        by (unfold totalVotesOf; rewrite Ho; reflexivity).
      destruct (Z_lt_le_dec (origTotalVotes (header l)) 0) as [Hneg|H0].
      * apply orig_negative; assumption.
      * rewrite (orig_run _ _ _ Ho Ht H0).
        destruct (winnersOf cfg l rows) as [|w ws]; [congruence|].
        rewrite (doleWinners_undefined _ _ _ _ _ _ HTV). reflexivity.
    + rewrite (cb_run _ _ _ Ho Ht).
      destruct (winnersOf cfg l rows) as [|w ws]; [congruence|].
      rewrite (doleWinners_undefined _ _ _ _ _ _ HTV). reflexivity.
  - intros Hnil. destruct (isOrig cfg) eqn:Ho.
    + assert (totalVotesOf cfg l = origTotalVotes (header l)) as Htv
        by (unfold totalVotesOf; rewrite Ho; reflexivity).
      split.
      * intros Hneg. apply orig_negative; try assumption. lia.
      * intros Hz. rewrite (orig_run _ _ _ Ho Ht) by lia.
        rewrite Hnil, (startFrame_orig _ _ Ho). cbn [doleWinners payouts db].
        eexists. split; reflexivity.
    + rewrite (cb_run _ _ _ Ho Ht), Hnil, (startFrame_cb _ _ Ho).
      cbn [doleWinners]. unfold cbCredit, loadAccount, fromStrKey, storeChange.
      cbn [db leftAfterDole payouts lcl].
      destruct (accounts l !! COMMON_BUDGET_ACCOUNT_ID cfg) as [b|].
      * destruct (addBalance b (i64 (feePool (header l)))) as [b'|];
          cbn [mbind Res_bind db payouts]; [|reflexivity].
        eexists. split; reflexivity.
      * cbn [mbind Res_bind db payouts]. eexists. split; reflexivity.
Qed.

Lemma nonpositive_votes_fail_on_first_winner_witness :
  doApply configOrig ledgerNoCoins [mkVotes 0 "GA"] = Throw BigDivideUndefined /\
  doApply configTwice ledgerSmall [mkVotes 400 "GA"] = Throw BigDivideUndefined /\
  doApply configOrig ledgerWrappedCoins [] = Throw BigDivideUndefined /\
  (exists l', doApply configOrig ledgerNoCoins [] = Ok (INFLATION_SUCCESS [], l') /\
              accounts l' = accounts ledgerNoCoins) /\
  doApply configPlain ledgerAllFeesFullSink [] = Throw CommonBudgetOverflow.
Proof.
  assert (totalVotesOf configOrig ledgerNoCoins <= 0) as H1
    by (vm_compute; discriminate).
  assert (totalVotesOf configTwice ledgerSmall <= 0) as H2
    by (vm_compute; discriminate).
  assert (totalVotesOf configOrig ledgerWrappedCoins <= 0) as H3
    by (vm_compute; discriminate).
  assert (totalVotesOf configPlain ledgerAllFeesFullSink <= 0) as H4
    by (vm_compute; discriminate).
  split; [|split; [|split; [|split]]].
  - apply (proj1 (nonpositive_votes_fail_on_first_winner configOrig ledgerNoCoins
                    [mkVotes 0 "GA"] eq_refl H1)).
    vm_compute. discriminate.
  - apply (proj1 (nonpositive_votes_fail_on_first_winner configTwice ledgerSmall
                    [mkVotes 400 "GA"] eq_refl H2)).
    vm_compute. discriminate.
  - apply (proj1 (proj2 (nonpositive_votes_fail_on_first_winner configOrig
                           ledgerWrappedCoins [] eq_refl H3) eq_refl)).
    vm_compute. reflexivity.
  - apply (proj2 (proj2 (nonpositive_votes_fail_on_first_winner configOrig
                           ledgerNoCoins [] eq_refl H1) eq_refl)).
    vm_compute. reflexivity.
  - exact (proj2 (nonpositive_votes_fail_on_first_winner configPlain
                    ledgerAllFeesFullSink [] eq_refl H4) eq_refl).
Defined.

(** C6 fails when no winner is enumerated: with a total of votes of zero
    both schemes return success and advance the sequence number, the
    common budget one crediting the fee pool to the common budget
    account. *)
Lemma nonpositive_votes_succeed_without_winner :
  (totalVotesOf configOrig ledgerNoCoins = 0 /\
   doApply configOrig ledgerNoCoins [] =
     Ok (INFLATION_SUCCESS [],
         mkLedger (mkHeader 0 0 3 1404173400 9) (<["GA" := 0]> ∅)) /\
   ~ rejectsNonPositiveVotes configOrig ledgerNoCoins []) /\
  (totalVotesOf configPlain ledgerAllFees = 0 /\
   doApply configPlain ledgerAllFees [mkVotes 0 "GA"] =
     Ok (INFLATION_SUCCESS [mkPayout "GB" 1000],
         mkLedger (mkHeader 1000 0 3 1404173400 9)
                  (<["GA" := 0]> (<["GB" := 1000]> ∅))) /\
   ~ rejectsNonPositiveVotes configPlain ledgerAllFees [mkVotes 0 "GA"]).
Proof.
  assert (doApply configOrig ledgerNoCoins [] =
     Ok (INFLATION_SUCCESS [],
         mkLedger (mkHeader 0 0 3 1404173400 9) (<["GA" := 0]> ∅)))
    as H1 by (vm_compute; reflexivity).
  assert (doApply configPlain ledgerAllFees [mkVotes 0 "GA"] =
     Ok (INFLATION_SUCCESS [mkPayout "GB" 1000],
         mkLedger (mkHeader 1000 0 3 1404173400 9)
                  (<["GA" := 0]> (<["GB" := 1000]> ∅))))
    as H2 by (vm_compute; reflexivity).
  split; (split; [vm_compute; reflexivity|split]); try assumption.
  - intros Hrej. destruct Hrej as [f Hf]; [reflexivity|vm_compute; discriminate|].
    rewrite H1 in Hf. discriminate.
  - intros Hrej. destruct Hrej as [f Hf]; [reflexivity|vm_compute; discriminate|].
    rewrite H2 in Hf. discriminate.
Qed.

(** ** The parameters of the common budget scheme *)

Lemma excludedBalances_nonneg (m : gmap string Z) excluded :
  (forall a b, m !! a = Some b -> 0 <= b) -> 0 <= excludedBalances m excluded.
Proof.
  intros Hpos. induction excluded as [|a ex IH]; simpl; [lia|].
  destruct (m !! a) as [b|] eqn:Ha; [|exact IH].
  specialize (Hpos a b Ha). lia.
Qed.

(** The total of votes is the coins outside the fee pool less the
    balances of the excluded accounts that exist, as long as the header
    holds a fee pool within the coins, the coins are representable and no
    balance is negative. *)
Lemma cbTotalVotes_exact cfg l :
  0 <= feePool (header l) <= totalCoins (header l) ->
  totalCoins (header l) <= INT64_MAX ->
  (forall a b, accounts l !! a = Some b -> 0 <= b) ->
  INT64_MIN <= totalCoins (header l) - feePool (header l) -
               excludedBalances (accounts l) (COMMON_BUDGET_INFLATION_EXCLUDED_ACCOUNTS cfg) ->
  cbTotalVotes cfg l =
  totalCoins (header l) - feePool (header l) -
  excludedBalances (accounts l) (COMMON_BUDGET_INFLATION_EXCLUDED_ACCOUNTS cfg).
Proof.
  intros Hfp Htc Hpos Hmin. unfold cbTotalVotes, loadAccount, fromStrKey.
  rewrite u64_small by range.
  rewrite i64_small by range.
  assert (totalCoins (header l) - feePool (header l) <= INT64_MAX) as Hmax by lia.
  revert Hmin Hmax. generalize (totalCoins (header l) - feePool (header l)) as acc.
  induction (COMMON_BUDGET_INFLATION_EXCLUDED_ACCOUNTS cfg) as [|a ex IH];
    intros acc Hmin Hmax; simpl in *; [lia|].
  pose proof (excludedBalances_nonneg (accounts l) ex Hpos) as Hex.
  destruct (accounts l !! a) as [b|] eqn:Ha.
  - specialize (Hpos a b Ha).
    assert (sub64 acc b = acc - b) as -> by (apply i64_small; lia).
    rewrite IH; lia.
  - apply IH; assumption.
Qed.

(** Below a seventh of 2^64 the product does not wrap and the amount to
    dole is seven tenths of the fee pool, rounded down. *)
Lemma cbAmountToDole_exact h :
  0 <= feePool h -> feePool h * 7 < TWO64 ->
  cbAmountToDole h = feePool h * 7 / 10.
Proof.
  intros H0 Hlt. unfold cbAmountToDole. rewrite u64_small by lia. reflexivity.
Qed.

(** C8: with a fee pool of 3000000000000000000 out of
    9000000000000000000 coins, both representable as [int64], the product
    by 7 wraps around 2^64: the amount to dole is 255325592629044838
    where seven tenths of the fee pool are 2100000000000000000, and the
    winner holding all the votes is paid the former; the total of votes
    is the coins less the fee pool and the balance of the excluded
    account that exists. *)
Theorem cbAmountToDole_wraps :
  0 <= feePool (header ledgerHugeFees) <= totalCoins (header ledgerHugeFees) /\
  totalCoins (header ledgerHugeFees) <= INT64_MAX /\
  cbTotalVotes configBudget ledgerHugeFees =
    9000000000000000000 - 3000000000000000000 - 1000000000000000000 /\
  feePool (header ledgerHugeFees) * 7 / 10 = 2100000000000000000 /\
  cbAmountToDole (header ledgerHugeFees) = 255325592629044838 /\
  doApply configBudget ledgerHugeFees rowsAll =
    Ok (INFLATION_SUCCESS [mkPayout "GA" 255325592629044838;
                           mkPayout "GB" 2744674407370955162],
        mkLedger (mkHeader 9000000000000000000 0 3 1404173400 9)
                 (<["GA" := 5255325592629044838]>
                    (<["GB" := 3744674407370955162]> ∅))).
Proof.
  split; [simpl; lia|].
  split; [unfold INT64_MAX; simpl; lia|].
  repeat split; vm_compute; reflexivity.
Qed.

(** ** The two examples of the specification *)

(** One winner holding all the votes, original scheme, ledger version 9:
    the winner receives the inflation amount and the fee pool, the total
    of coins grows by the inflation amount, the fee pool is empty and the
    sequence number advances. *)
Example all_votes_original_scheme :
  doApply configOrig ledgerDue [mkVotes 1000000000000000 "GA"] =
    Ok (INFLATION_SUCCESS [mkPayout "GA" (190721000000 + 1000000)],
        mkLedger (mkHeader (1000000000000000 + 190721000000) 0 3 1404173400 9)
                 (<["GA" := 900000000000000 + 190721000000 + 1000000]> accountsDue)).
Proof. vm_compute. reflexivity. Qed.

(** Common budget scheme with a fee pool of 1000: the winner is entitled
    to its share of 700 and the rest goes to the common budget account. *)
Example common_budget_of_a_thousand :
  doApply configBudget
    (mkLedger (mkHeader 2000 1000 2 1404173400 9) (accounts ledgerSmall))
    [mkVotes 300 "GA"] =
    Ok (INFLATION_SUCCESS [mkPayout "GA" (700 * 300 / 400); mkPayout "GB" (1000 - 525)],
        mkLedger (mkHeader 2000 0 3 1404173400 9)
                 (<["GA" := 400 + 525]> (<["GB" := 600 + 475]> ∅))).
Proof. vm_compute. reflexivity. Qed.

(** With an empty fee pool the winner is skipped and the common budget
    account is still recorded, with an amount of zero. *)
Example common_budget_of_nothing :
  doApply configBudget ledgerSmall [mkVotes 400 "GA"] =
    Ok (INFLATION_SUCCESS [mkPayout "GB" 0],
        mkLedger (mkHeader 1000 0 3 1404173400 9) (accounts ledgerSmall)).
Proof. vm_compute. reflexivity. Qed.

(** * Further properties of the operation *)

(** ** Balances and recorded payouts *)

Lemma creditAll_app (m : gmap string Z) ps qs :
  creditAll m (ps ++ qs) = creditAll (creditAll m ps) qs.
Proof. unfold creditAll. apply fold_left_app. Qed.

Lemma winnerPayouts_exist A TV (m : gmap string Z) ws :
  Forall (fun p => is_Some (m !! destination p)) (winnerPayouts A TV m ws).
Proof.
  induction ws as [|w ws IH]; [constructor|].
  rewrite winnerPayouts_step.
  destruct (payoutOf A TV m w) as [p|] eqn:Hp; [|exact IH].
  constructor; [|exact IH].
  apply payoutOf_Some in Hp as (Hd & _ & _ & Hex). rewrite Hd. exact Hex.
Qed.

(** The balances a returning run leaves are the recorded payouts applied
    to the balances it found, every payout going to an account that was
    there. *)
Lemma success_accounts cfg l rows ps l' :
  doApply cfg l rows = Ok (INFLATION_SUCCESS ps, l') ->
  accounts l' = creditAll (accounts l) ps /\
  Forall (fun p => is_Some (accounts l !! destination p)) ps.
Proof.
  intros H. destruct (isOrig cfg) eqn:Ho.
  - apply (orig_success _ _ _ _ _ Ho) in H as (_ & _ & s & Hloop & -> & ->).
    apply loop_result in Hloop as (Hps & Hdb & _).
    rewrite startFrame_orig in Hps, Hdb by exact Ho. simpl in Hps, Hdb.
    rewrite Hps. split; [exact Hdb|apply winnerPayouts_exist].
  - apply (cb_success _ _ _ _ _ Ho) in H as (_ & s & s' & Hloop & Hc & -> & ->).
    apply loop_result in Hloop as (Hps & Hdb & _).
    rewrite startFrame_cb in Hps, Hdb by exact Ho. simpl in Hps, Hdb.
    apply cbCredit_Ok in Hc as (_ & _ & [(_ & Hdb' & Hps')|(b & Hb & _ & Hdb' & Hps')]).
    + simpl. rewrite Hdb', Hps', Hps. split; [exact Hdb|apply winnerPayouts_exist].
    + simpl. rewrite Hdb', Hps', creditAll_app, Hps, <- Hdb. split.
      * unfold creditAll, credit. simpl. rewrite Hb. reflexivity.
      * apply Forall_app. split; [apply winnerPayouts_exist|].
        constructor; [|constructor]. simpl.
        apply (creditAll_is_Some (winnerPayouts (amountToDoleOf cfg l) (totalVotesOf cfg l)
                                    (accounts l) (winnersOf cfg l rows))).
        rewrite <- Hdb. eexists; exact Hb.
Qed.

(** A balance after a list of payouts that are not negative: at least
    what it was, at most that and all the payouts. *)
Lemma creditAll_lookup_bounds ps : forall (m : gmap string Z) k b,
  Forall (fun p => 0 <= amount p) ps ->
  m !! k = Some b ->
  exists b', creditAll m ps !! k = Some b' /\ b <= b' <= b + sumAmounts ps.
Proof.
  unfold creditAll.
  induction ps as [|p ps IH]; intros m k b Hpos Hk; simpl.
  - exists b. split; [exact Hk|lia].
  - inversion Hpos as [|? ? Hp Hps]; subst.
    assert (exists b1, credit m p !! k = Some b1 /\ b <= b1 <= b + amount p)
      as (b1 & Hb1 & Hle).
    { unfold credit. destruct (m !! destination p) as [bd|] eqn:Hd.
      - destruct (decide (destination p = k)) as [Heq|Hne].
        + subst k. rewrite lookup_insert_eq. exists (bd + amount p).
          split; [reflexivity|]. assert (bd = b) by congruence. lia.
        + rewrite lookup_insert_ne by exact Hne. exists b. split; [exact Hk|lia].
      - exists b. split; [exact Hk|lia]. }
    destruct (IH _ _ _ Hps Hb1) as (b' & Hb' & Hle').
    exists b'. split; [exact Hb'|lia].
Qed.

(** A balance no payout is addressed to stays as it is. *)
Lemma creditAll_lookup_other ps : forall (m : gmap string Z) k,
  Forall (fun p => destination p <> k) ps ->
  creditAll m ps !! k = m !! k.
Proof.
  unfold creditAll.
  induction ps as [|p ps IH]; intros m k Hne; simpl; [reflexivity|].
  inversion Hne as [|? ? Hp Hps]; subst.
  rewrite IH by exact Hps. unfold credit.
  destruct (m !! destination p); [|reflexivity].
  apply lookup_insert_ne. exact Hp.
Qed.

(** X1: whatever the scheme, a successful run changes the balances by
    the recorded payouts and nothing else: the accounts after the run
    are the accounts before it with every entry of the payouts, in
    order, added to the balance of its destination, and every
    destination was an account before the run. *)
Theorem payouts_record_every_balance_change cfg l rows ps l' :
  doApply cfg l rows = Ok (INFLATION_SUCCESS ps, l') ->
  accounts l' = creditAll (accounts l) ps /\
  Forall (fun p => is_Some (accounts l !! destination p)) ps /\
  (forall k, Forall (fun p => destination p <> k) ps ->
             accounts l' !! k = accounts l !! k) /\
  (forall k, is_Some (accounts l' !! k) <-> is_Some (accounts l !! k)).
Proof.
  intros H. destruct (success_accounts _ _ _ _ _ H) as [Hacc Hex].
  split; [exact Hacc|]. split; [exact Hex|]. split.
  - intros k Hne. rewrite Hacc. apply creditAll_lookup_other. exact Hne.
  - intros k. rewrite Hacc. apply creditAll_is_Some.
Qed.

Lemma payouts_record_every_balance_change_witness :
  exists l',
    doApply configBudget ledgerDue rowsDust =
      Ok (INFLATION_SUCCESS [mkPayout "GA" 699999; mkPayout "GB" 300001], l') /\
    accounts l' =
      creditAll accountsDue [mkPayout "GA" 699999; mkPayout "GB" 300001] /\
    accounts l' !! "GD" = Some 1000000.
Proof.
  eexists.
  assert (doApply configBudget ledgerDue rowsDust =
          Ok (INFLATION_SUCCESS [mkPayout "GA" 699999; mkPayout "GB" 300001],
              mkLedger (mkHeader 1000000000000000 0 3 1404173400 9)
                (<["GB" := 99999998300001]> (<["GA" := 900000000699999]> accountsDue))))
    as Hrun by (vm_compute; reflexivity).
  destruct (payouts_record_every_balance_change _ _ _ _ _ Hrun) as (Hacc & _ & Hother & _).
  split; [exact Hrun|]. split; [exact Hacc|].
  rewrite (Hother "GD").
  - vm_compute. reflexivity.
  - repeat constructor; discriminate.
Defined.

(** X2: in the original scheme a successful run never lowers a balance:
    every account holds at least what it held, and at most that and the
    sum of the recorded payouts. *)
Theorem original_scheme_never_lowers_a_balance cfg l rows ps l' k b :
  isOrig cfg = true ->
  doApply cfg l rows = Ok (INFLATION_SUCCESS ps, l') ->
  accounts l !! k = Some b ->
  exists b', accounts l' !! k = Some b' /\ b <= b' <= b + sumAmounts ps.
Proof.
  intros Ho H Hk.
  destruct (success_accounts _ _ _ _ _ H) as [Hacc _].
  apply (orig_success _ _ _ _ _ Ho) in H as (_ & _ & s & Hloop & -> & _).
  pose proof (loop_result _ _ _ _ _ _ Hloop) as (Hps & _).
  apply doleWinners_payouts in Hloop as (Hpos & _).
  rewrite startFrame_orig in Hps, Hpos by exact Ho. simpl in Hps, Hpos.
  rewrite Hacc. apply creditAll_lookup_bounds; [|exact Hk].
  rewrite Hps. apply positive_nonneg. exact Hpos.
Qed.

Lemma original_scheme_never_lowers_a_balance_witness :
  exists l' b',
    doApply configOrig ledgerDue rowsTwo =
      Ok (INFLATION_SUCCESS [mkPayout "GA" 171649800000], l') /\
    accounts l' !! "GA" = Some b' /\
    900000000000000 <= b' <= 900000000000000 + 171649800000.
Proof.
  eexists.
  assert (doApply configOrig ledgerDue rowsTwo =
          Ok (INFLATION_SUCCESS [mkPayout "GA" 171649800000],
              mkLedger (mkHeader 1000190721000000 19072200000 3 1404173400 9)
                (<["GA" := 900171649800000]> accountsDue)))
    as Hrun by (vm_compute; reflexivity).
  destruct (original_scheme_never_lowers_a_balance configOrig ledgerDue rowsTwo _ _
              "GA" 900000000000000 eq_refl Hrun eq_refl) as (b' & Hb' & Hle).
  exists b'. split; [exact Hrun|]. split; [exact Hb'|exact Hle].
Defined.

(** ** The supply *)

Lemma sumBalances_credit (m : gmap string Z) p b :
  m !! destination p = Some b ->
  sumBalances (credit m p) = sumBalances m + amount p.
Proof.
  intros Hd. unfold credit, sumBalances. rewrite Hd.
  rewrite (map_fold_delete_L _ 0 (destination p) b m); [|intros; lia|exact Hd].
  rewrite <- insert_delete_eq.
  rewrite map_fold_insert_L; [lia|intros; lia|apply lookup_delete_eq].
Qed.

Lemma sumBalances_creditAll ps : forall (m : gmap string Z),
  Forall (fun p => is_Some (m !! destination p)) ps ->
  sumBalances (creditAll m ps) = sumBalances m + sumAmounts ps.
Proof.
  unfold creditAll.
  induction ps as [|p ps IH]; intros m Hex; simpl; [lia|].
  inversion Hex as [|? ? [b Hb] Hps]; subst.
  rewrite IH.
  - rewrite (sumBalances_credit _ _ _ Hb). lia.
  - eapply Forall_impl; [exact Hps|]. intros q Hq. simpl in *.
    apply credit_is_Some. exact Hq.
Qed.

(** The header a successful run of the original scheme leaves, for a
    representable pool and votes within the total. *)
Lemma orig_success_header cfg l rows ps l' :
  isOrig cfg = true ->
  0 <= totalCoins (header l) < TWO64 ->
  poolRepresentable cfg l ->
  votesWithin cfg l rows ->
  doApply cfg l rows = Ok (INFLATION_SUCCESS ps, l') ->
  0 <= sumAmounts ps <= poolOf cfg l /\
  feePool (header l') = poolOf cfg l - sumAmounts ps /\
  totalCoins (header l') =
    totalCoins (header l) +
    (if ledgerVersion (header l) <=? 7 then sumAmounts ps
     else inflationAmountOf (header l)).
Proof.
  intros Ho Hr [Hfp0 Hrep] Hin H. rewrite Ho in Hrep.
  unfold poolOf. rewrite Ho.
  apply (orig_success _ _ _ _ _ Ho) in H as (_ & H0 & s & Hloop & -> & ->).
  destruct (origTotalVotes_exact _ Hr H0) as [Htv Hmax].
  pose proof (inflationAmountOf_bounds _ H0) as Hia.
  assert (amountToDoleOf cfg l = inflationAmountOf (header l) + feePool (header l)) as HA.
  { unfold amountToDoleOf, origAmountToDole. rewrite Ho.
    rewrite u64_small by range. apply i64_small. range. }
  pose proof (loop_result _ _ _ _ _ _ Hloop) as (Hps & _ & Hfee & _ & _ & Hver).
  pose proof (doleWinners_payouts _ _ _ _ _ _ Hloop) as (Hpos & Hsum0 & Hle).
  pose proof (doleWinners_Ok _ _ _ _ _ _ Hloop) as [Hs _].
  rewrite startFrame_orig in Hps, Hfee, Hver, Hs, Hpos, Hsum0, Hle by exact Ho.
  simpl in Hps, Hfee, Hver, Hs, Hpos, Hsum0, Hle.
  set (wps := winnerPayouts (amountToDoleOf cfg l) (totalVotesOf cfg l)
                (accounts l) (winnersOf cfg l rows)) in *.
  apply Hle in Hin. rewrite Hps.
  assert (leftAfterDole s = amountToDoleOf cfg l - sumAmounts wps) as Hleft.
  { rewrite Hs. rewrite fold_record_left; simpl.
    - reflexivity.
    - apply positive_nonneg. exact Hpos.
    - lia.
    - range. }
  assert (totalCoins (lcl s) =
          if ledgerVersion (header l) <=? 7
          then totalCoins (header l) + sumAmounts wps else totalCoins (header l)) as Hcoins.
  { rewrite Hs. rewrite fold_record_coins; simpl.
    - reflexivity.
    - lia.
    - apply positive_nonneg. exact Hpos.
    - range. }
  split; [lia|]. simpl. unfold origFinish. simpl. rewrite Hver, Hfee. simpl.
  rewrite (Z.ltb_antisym (ledgerVersion (header l)) 7).
  destruct (ledgerVersion (header l) <=? 7) eqn:Hv; simpl.
  - split; [rewrite Hleft; rewrite u64_small by range; lia|lia].
  - split; [rewrite Hleft; rewrite u64_small by range; lia|].
    rewrite Hcoins. apply u64_small. range.
Qed.

(** The header and the payouts a successful run of the common budget
    scheme leaves, for a representable fee pool and votes within the
    total. *)
Lemma cb_success_header cfg l rows ps l' :
  isOrig cfg = false ->
  0 <= feePool (header l) <= INT64_MAX ->
  votesWithin cfg l rows ->
  doApply cfg l rows = Ok (INFLATION_SUCCESS ps, l') ->
  feePool (header l') = 0 /\
  totalCoins (header l') = totalCoins (header l) /\
  0 <= sumAmounts ps <= feePool (header l) /\
  (is_Some (accounts l !! COMMON_BUDGET_ACCOUNT_ID cfg) ->
   sumAmounts ps = feePool (header l)).
Proof.
  intros Ho Hfp Hin H.
  apply (cb_success _ _ _ _ _ Ho) in H as (_ & s & s' & Hloop & Hc & -> & ->).
  destruct (cb_loop_frame _ _ _ _ Ho Hfp Hin Hloop) as (Hps & Hdb & Hleft & Hsum).
  pose proof (cb_loop_lcl _ _ _ _ Ho Hloop) as Hlcl.
  pose proof (creditAll_is_Some (payouts s) (accounts l) (COMMON_BUDGET_ACCOUNT_ID cfg))
    as Hdom.
  rewrite <- Hps in Hdb. rewrite <- Hdb in Hdom. rewrite <- Hps in Hleft, Hsum.
  apply cbCredit_Ok in Hc as (Hl & _ & [(Hnone & _ & Hps')|(b & Hb & _ & _ & Hps')]);
    simpl; rewrite Hl, Hlcl; simpl.
  - repeat split; try (rewrite Hps'; lia).
    intros Hex. apply Hdom in Hex. rewrite Hnone in Hex. destruct Hex as [? [=]].
  - rewrite Hps', sumAmounts_app. simpl. repeat split; lia.
Qed.

(** X3: whatever the scheme, the balances of all the accounts together
    grow in a successful run by exactly the sum of the recorded
    payouts. *)
Theorem balances_grow_by_the_payouts cfg l rows ps l' :
  doApply cfg l rows = Ok (INFLATION_SUCCESS ps, l') ->
  sumBalances (accounts l') = sumBalances (accounts l) + sumAmounts ps.
Proof.
  intros H. destruct (success_accounts _ _ _ _ _ H) as [-> Hex].
  apply sumBalances_creditAll. exact Hex.
Qed.

Lemma balances_grow_by_the_payouts_witness :
  exists l',
    doApply configBudget ledgerDue rowsOne =
      Ok (INFLATION_SUCCESS [mkPayout "GA" 699999; mkPayout "GB" 300001], l') /\
    sumBalances (accounts l') = 999999999000000 + (699999 + (300001 + 0)).
Proof.
  eexists.
  assert (doApply configBudget ledgerDue rowsOne =
          Ok (INFLATION_SUCCESS [mkPayout "GA" 699999; mkPayout "GB" 300001],
              mkLedger (mkHeader 1000000000000000 0 3 1404173400 9)
                (<["GB" := 99999998300001]> (<["GA" := 900000000699999]> accountsDue))))
    as Hrun by (vm_compute; reflexivity).
  split; [exact Hrun|].
  rewrite (balances_grow_by_the_payouts _ _ _ _ _ Hrun).
  vm_compute. reflexivity.
Defined.

(** X4: from ledger version 8 on the original scheme keeps the supply
    balanced: when the total of coins is the fee pool and the balances
    together before a successful run, it is so after it. *)
Theorem original_scheme_keeps_supply_balanced cfg l rows ps l' :
  isOrig cfg = true ->
  7 < ledgerVersion (header l) ->
  0 <= totalCoins (header l) < TWO64 ->
  poolRepresentable cfg l ->
  votesWithin cfg l rows ->
  totalCoins (header l) = feePool (header l) + sumBalances (accounts l) ->
  doApply cfg l rows = Ok (INFLATION_SUCCESS ps, l') ->
  totalCoins (header l') = feePool (header l') + sumBalances (accounts l').
Proof.
  intros Ho Hv Hr Hrep Hin Hinv H.
  destruct (success_accounts _ _ _ _ _ H) as [Hacc Hex].
  destruct (orig_success_header _ _ _ _ _ Ho Hr Hrep Hin H) as (_ & Hfee & Hcoins).
  rewrite Hacc, (sumBalances_creditAll _ _ Hex), Hfee, Hcoins.
  replace (ledgerVersion (header l) <=? 7) with false by (symmetry; apply Z.leb_gt; lia).
  unfold poolOf. rewrite Ho. lia.
Qed.

Lemma original_scheme_keeps_supply_balanced_witness :
  exists l',
    doApply configOrig ledgerDue rowsTwo =
      Ok (INFLATION_SUCCESS [mkPayout "GA" 171649800000], l') /\
    totalCoins (header l') = feePool (header l') + sumBalances (accounts l').
Proof.
  eexists.
  assert (doApply configOrig ledgerDue rowsTwo =
          Ok (INFLATION_SUCCESS [mkPayout "GA" 171649800000],
              mkLedger (mkHeader 1000190721000000 19072200000 3 1404173400 9)
                (<["GA" := 900171649800000]> accountsDue)))
    as Hrun by (vm_compute; reflexivity).
  split; [exact Hrun|].
  apply (original_scheme_keeps_supply_balanced configOrig ledgerDue rowsTwo
           [mkPayout "GA" 171649800000]).
  - reflexivity.
  - simpl. lia.
  - unfold TWO64. simpl. lia.
  - unfold poolRepresentable. vm_compute. split; discriminate.
  - unfold votesWithin. vm_compute. discriminate.
  - vm_compute. reflexivity.
  - exact Hrun.
Defined.

(** X5: up to ledger version 7 the original scheme counts the payouts,
    not the inflation amount, into the total of coins: when the total of
    coins is the fee pool and the balances together before a successful
    run, it is afterwards the balances together and the fee pool the run
    started from, whatever the fee pool has become. *)
Theorem original_scheme_old_versions_miscount_supply cfg l rows ps l' :
  isOrig cfg = true ->
  ledgerVersion (header l) <= 7 ->
  0 <= totalCoins (header l) < TWO64 ->
  poolRepresentable cfg l ->
  votesWithin cfg l rows ->
  totalCoins (header l) = feePool (header l) + sumBalances (accounts l) ->
  doApply cfg l rows = Ok (INFLATION_SUCCESS ps, l') ->
  totalCoins (header l') = feePool (header l) + sumBalances (accounts l') /\
  feePool (header l') + sumBalances (accounts l') =
    totalCoins (header l') + (inflationAmountOf (header l) - sumAmounts ps).
Proof.
  intros Ho Hv Hr Hrep Hin Hinv H.
  destruct (success_accounts _ _ _ _ _ H) as [Hacc Hex].
  destruct (orig_success_header _ _ _ _ _ Ho Hr Hrep Hin H) as (_ & Hfee & Hcoins).
  rewrite Hacc, (sumBalances_creditAll _ _ Hex), Hfee, Hcoins.
  replace (ledgerVersion (header l) <=? 7) with true by (symmetry; apply Z.leb_le; lia).
  unfold poolOf. rewrite Ho. lia.
Qed.

Lemma original_scheme_old_versions_miscount_supply_witness :
  exists l',
    doApply configOrig ledgerOld rowsTwo =
      Ok (INFLATION_SUCCESS [mkPayout "GA" 171649800000], l') /\
    totalCoins (header l') = 1000000 + sumBalances (accounts l') /\
    feePool (header l') + sumBalances (accounts l') =
      totalCoins (header l') + (190721000000 - 171649800000).
Proof.
  eexists.
  assert (doApply configOrig ledgerOld rowsTwo =
          Ok (INFLATION_SUCCESS [mkPayout "GA" 171649800000],
              mkLedger (mkHeader 1000171649800000 19072200000 3 1404173400 7)
                (<["GA" := 900171649800000]> accountsDue)))
    as Hrun by (vm_compute; reflexivity).
  split; [exact Hrun|].
  apply (original_scheme_old_versions_miscount_supply configOrig ledgerOld rowsTwo
           [mkPayout "GA" 171649800000]).
  - reflexivity.
  - simpl. lia.
  - unfold TWO64. simpl. lia.
  - unfold poolRepresentable. vm_compute. split; discriminate.
  - unfold votesWithin. vm_compute. discriminate.
  - vm_compute. reflexivity.
  - exact Hrun.
Defined.

(** X6: the common budget scheme keeps the supply balanced exactly when
    the common budget account exists: when the total of coins is the
    fee pool and the balances together before a successful run, the
    fee pool is empty afterwards and the total of coins is the balances
    together if the account exists, and the balances together and the
    part of the fee pool that was not paid if it does not. *)
Theorem common_budget_supply cfg l rows ps l' :
  isOrig cfg = false ->
  0 <= feePool (header l) <= INT64_MAX ->
  votesWithin cfg l rows ->
  totalCoins (header l) = feePool (header l) + sumBalances (accounts l) ->
  doApply cfg l rows = Ok (INFLATION_SUCCESS ps, l') ->
  feePool (header l') = 0 /\
  totalCoins (header l') =
    sumBalances (accounts l') + (feePool (header l) - sumAmounts ps) /\
  0 <= feePool (header l) - sumAmounts ps /\
  (is_Some (accounts l !! COMMON_BUDGET_ACCOUNT_ID cfg) ->
   totalCoins (header l') = feePool (header l') + sumBalances (accounts l')).
Proof.
  intros Ho Hfp Hin Hinv H.
  destruct (success_accounts _ _ _ _ _ H) as [Hacc Hex].
  destruct (cb_success_header _ _ _ _ _ Ho Hfp Hin H) as (Hfee & Hcoins & Hsum & Hall).
  rewrite Hacc, (sumBalances_creditAll _ _ Hex), Hfee, Hcoins.
  repeat split; try lia.
  intros Hsink. apply Hall in Hsink. lia.
Qed.

Lemma common_budget_supply_witness :
  (exists l',
     doApply configBudget ledgerDue rowsOne =
       Ok (INFLATION_SUCCESS [mkPayout "GA" 699999; mkPayout "GB" 300001], l') /\
     totalCoins (header l') = feePool (header l') + sumBalances (accounts l')) /\
  (exists l',
     doApply configNoSink ledgerDue rowsOne =
       Ok (INFLATION_SUCCESS [mkPayout "GA" 630000], l') /\
     totalCoins (header l') = sumBalances (accounts l') + (1000000 - (630000 + 0))).
Proof.
  split.
  - eexists.
    assert (doApply configBudget ledgerDue rowsOne =
            Ok (INFLATION_SUCCESS [mkPayout "GA" 699999; mkPayout "GB" 300001],
                mkLedger (mkHeader 1000000000000000 0 3 1404173400 9)
                  (<["GB" := 99999998300001]> (<["GA" := 900000000699999]> accountsDue))))
      as Hrun by (vm_compute; reflexivity).
    split; [exact Hrun|].
    edestruct (common_budget_supply configBudget ledgerDue rowsOne) as (_ & _ & _ & Hbal).
    + reflexivity.
    + unfold INT64_MAX. simpl. lia.
    + unfold votesWithin. vm_compute. discriminate.
    + vm_compute. reflexivity.
    + exact Hrun.
    + apply Hbal. vm_compute. eexists; reflexivity.
  - eexists.
    assert (doApply configNoSink ledgerDue rowsOne =
            Ok (INFLATION_SUCCESS [mkPayout "GA" 630000],
                mkLedger (mkHeader 1000000000000000 0 3 1404173400 9)
                  (<["GA" := 900000000630000]> accountsDue)))
      as Hrun by (vm_compute; reflexivity).
    split; [exact Hrun|].
    edestruct (common_budget_supply configNoSink ledgerDue rowsOne) as (_ & Hshort & _).
    + reflexivity.
    + unfold INT64_MAX. simpl. lia.
    + unfold votesWithin. vm_compute. discriminate.
    + vm_compute. reflexivity.
    + exact Hrun.
    + exact Hshort.
Defined.

(** ** One run after another *)

(** What a successful run leaves of the header fields that date it. *)
Lemma success_header_time cfg l rows ps l' :
  doApply cfg l rows = Ok (INFLATION_SUCCESS ps, l') ->
  closeTime (header l') = closeTime (header l) /\
  ledgerVersion (header l') = ledgerVersion (header l) /\
  inflationSeq (header l') = u64 (inflationSeq (header l) + 1).
Proof.
  intros H. destruct (isOrig cfg) eqn:Ho.
  - apply (orig_success _ _ _ _ _ Ho) in H as (_ & _ & s & Hloop & _ & ->).
    apply loop_result in Hloop as (_ & _ & _ & Hs & Hc & Hv).
    rewrite startFrame_orig in Hs, Hc, Hv by exact Ho. simpl in Hs, Hc, Hv.
    simpl. unfold origFinish. simpl.
    destruct (7 <? ledgerVersion (lcl s)); simpl; rewrite Hs, Hc, Hv; repeat split.
  - apply (cb_success _ _ _ _ _ Ho) in H as (_ & s & s' & Hloop & Hc & _ & ->).
    apply cbCredit_Ok in Hc as (Hl & _). simpl. rewrite Hl.
    rewrite (cb_loop_lcl _ _ _ _ Ho Hloop). repeat split.
Qed.

(** X7: a successful run moves the due time one period on and leaves
    the close time alone, so that a second run on the ledger it
    returns, under any configuration and tally, answers not-time and
    changes nothing exactly when the close time is less than one period
    past the time the first run was due. *)
Theorem second_run_waits_one_period cfg l rows ps l' cfg2 rows2 :
  timeRepresentable (header l) ->
  INFLATION_START_TIME + (inflationSeq (header l) + 1) * INFLATION_FREQUENCY
    <= INT64_MAX ->
  doApply cfg l rows = Ok (INFLATION_SUCCESS ps, l') ->
  (closeTime (header l) <
     INFLATION_START_TIME + (inflationSeq (header l) + 1) * INFLATION_FREQUENCY ->
   doApply cfg2 l' rows2 = Ok (INFLATION_NOT_TIME, l')) /\
  (INFLATION_START_TIME + (inflationSeq (header l) + 1) * INFLATION_FREQUENCY
     <= closeTime (header l) ->
   forall l'', doApply cfg2 l' rows2 <> Ok (INFLATION_NOT_TIME, l'')).
Proof.
  intros Hr Hnext H.
  destruct (success_header_time _ _ _ _ _ H) as (Hc & _ & Hs).
  assert (inflationSeq (header l') = inflationSeq (header l) + 1) as Hseq.
  { rewrite Hs. apply u64_small. destruct Hr as (_ & H0 & Hd).
    unfold INFLATION_START_TIME, INFLATION_FREQUENCY in *. range. }
  assert (timeRepresentable (header l')) as Hr'.
  { destruct Hr as (Hcl & H0 & _). unfold timeRepresentable.
    rewrite Hc, Hseq. repeat split; try lia. }
  pose proof (notTime_exact _ Hr') as Hiff. rewrite Hc, Hseq in Hiff.
  split.
  - intros Hlt. apply doApply_notTime. apply Hiff. exact Hlt.
  - intros Hge l'' H2.
    destruct (notTime (header l')) eqn:Ht.
    + assert (true = true) as Htt by reflexivity. apply Hiff in Htt. lia.
    + destruct (doApply_due _ _ _ _ _ Ht H2) as [ps2 [=]].
Qed.

Lemma second_run_waits_one_period_witness :
  exists l',
    doApply configOrig ledgerDue rowsOne =
      Ok (INFLATION_SUCCESS [mkPayout "GA" 171649800000], l') /\
    doApply configBudget l' rowsDust = Ok (INFLATION_NOT_TIME, l').
Proof.
  exists (mkLedger (mkHeader 1000190721000000 19072200000 3 1404173400 9)
            (<["GA" := 900171649800000]> accountsDue)).
  assert (doApply configOrig ledgerDue rowsOne =
          Ok (INFLATION_SUCCESS [mkPayout "GA" 171649800000],
              mkLedger (mkHeader 1000190721000000 19072200000 3 1404173400 9)
                (<["GA" := 900171649800000]> accountsDue)))
    as Hrun by (vm_compute; reflexivity).
  split; [exact Hrun|].
  apply (second_run_waits_one_period configOrig ledgerDue rowsOne
           [mkPayout "GA" 171649800000] _ configBudget rowsDust).
  - unfold timeRepresentable, INT64_MAX, INFLATION_START_TIME, INFLATION_FREQUENCY.
    simpl. lia.
  - unfold INT64_MAX, INFLATION_START_TIME, INFLATION_FREQUENCY. simpl. lia.
  - exact Hrun.
  - unfold INFLATION_START_TIME, INFLATION_FREQUENCY. simpl. lia.
Defined.

(** ** Runs that cannot fail *)

Lemma addBalance_in_range b d :
  INT64_MIN <= b + d <= INT64_MAX -> addBalance b d = Some (b + d).
Proof.
  intros [Hlo Hhi]. unfold addBalance.
  apply Z.leb_le in Hlo, Hhi. rewrite Hlo, Hhi. reflexivity.
Qed.

Lemma sumShares_bounds A TV ws :
  0 <= A -> 0 < TV -> Forall (fun w => 0 <= mVotes w) ws ->
  0 <= sumShares A TV ws /\
  TV * sumShares A TV ws <= A * sumVotes ws /\
  A * sumVotes ws <= TV * sumShares A TV ws + (TV - 1) * Z.of_nat (length ws).
Proof.
  intros HA HTV Hall. induction Hall as [|w ws Hw Hall IH].
  - simpl. lia.
  - destruct IH as (IH0 & IHle & IHge).
    destruct (share_bounds A TV w HA HTV Hw) as [Hs0 Hsle].
    assert (A * mVotes w <= TV * share A TV w + (TV - 1)) as Hsge.
    { unfold share. pose proof (Z.div_mod (A * mVotes w) TV) as Hdm.
      pose proof (Z.mod_pos_bound (A * mVotes w) TV HTV) as Hm. lia. }
    cbn [sumShares sumVotes foldr length]. fold (sumShares A TV ws) (sumVotes ws).
    rewrite Nat2Z.inj_succ. repeat split; nia.
Qed.

(** The loop returns when the shares fit the balances they may go to. *)
Lemma doleWinners_succeeds mint A TV ws : forall s,
  0 <= A -> 0 < TV -> Forall (fun w => 0 <= mVotes w) ws ->
  sumShares A TV ws <= INT64_MAX ->
  (forall k b, db s !! k = Some b -> 0 <= b /\ b + sumShares A TV ws <= INT64_MAX) ->
  exists s', doleWinners mint A TV ws s = Ok s'.
Proof.
  induction ws as [|w ws IH]; intros s HA HTV Hall Hmax Hbal.
  - exists s. reflexivity.
  - inversion Hall as [|? ? Hw Hws]; subst.
    destruct (share_bounds A TV w HA HTV Hw) as [Hs0 _].
    destruct (sumShares_bounds A TV ws HA HTV Hws) as (Hrest0 & _).
    cbn [sumShares foldr] in Hmax, Hbal. fold (sumShares A TV ws) in Hmax, Hbal.
    assert (bigDivide A (mVotes w) TV = Ok (share A TV w)) as Hdiv.
    { apply bigDivide_in_domain; try assumption. fold (share A TV w). lia. }
    simpl. unfold doleWinner, loadAccount. rewrite Hdiv. cbn [mbind Res_bind].
    destruct (share A TV w =? 0).
    { cbn [mbind Res_bind]. apply IH; try assumption; [lia|].
      intros k b Hk. specialize (Hbal k b Hk). lia. }
    destruct (db s !! mInflationDest w) as [bd|] eqn:Hd.
    + pose proof (Hbal _ _ Hd) as [Hbd0 Hbdmax].
      rewrite addBalance_in_range by range. cbn [mbind Res_bind].
      apply IH; try assumption; [lia|]. simpl. unfold storeChange.
      intros k b Hk. destruct (decide (mInflationDest w = k)) as [Heq|Hne].
      * subst k. rewrite lookup_insert_eq in Hk. injection Hk as <-. lia.
      * rewrite lookup_insert_ne in Hk by exact Hne.
        specialize (Hbal k b Hk). lia.
    + cbn [mbind Res_bind]. apply IH; try assumption; [lia|].
      intros k b Hk. specialize (Hbal k b Hk). lia.
Qed.

(** X8: a run past the time gate succeeds whenever the ledger is sound
    for it: a positive total of votes, a pool representable as [int64],
    a threshold of the common budget scheme that is not negative, votes
    of the winners within the total, and balances that are not negative
    and leave room for the pool. *)
Theorem sound_ledger_run_succeeds cfg l rows :
  notTime (header l) = false ->
  0 < totalVotesOf cfg l ->
  poolRepresentable cfg l ->
  (isOrig cfg = false -> 0 <= COMMON_BUDGET_INFLATION_MIN_BALANCE cfg) ->
  votesWithin cfg l rows ->
  (forall k b, accounts l !! k = Some b -> 0 <= b /\ b + poolOf cfg l <= INT64_MAX) ->
  exists ps l', doApply cfg l rows = Ok (INFLATION_SUCCESS ps, l').
Proof.
  intros Ht HTV [Hfp0 Hrep] Hmin Hin Hbal.
  assert (Forall (fun w => 0 <= mVotes w) (winnersOf cfg l rows)) as Hvotes.
  { destruct (winnersOf_threshold cfg l rows) as [Hth _].
    eapply Forall_impl; [exact Hth|]. intros w Hw. simpl in Hw.
    destruct (isOrig cfg) eqn:Ho.
    - unfold totalVotesOf in HTV. rewrite Ho in HTV.
      assert (0 <= minBalanceOf (header l)); [|lia].
      unfold minBalanceOf. apply Z.div_pos;
        unfold INFLATION_WIN_MIN_PERCENT, TRILLION; lia.
    - specialize (Hmin eq_refl). lia. }
  assert (0 <= amountToDoleOf cfg l <= poolOf cfg l) as HA.
  { unfold amountToDoleOf, poolOf. destruct (isOrig cfg) eqn:Ho.
    - unfold totalVotesOf in HTV. rewrite Ho in HTV.
      assert (0 <= origTotalVotes (header l)) as H0 by lia.
      pose proof (inflationAmountOf_bounds _ H0) as Hia.
      unfold origAmountToDole. rewrite u64_small by range.
      rewrite i64_small by range. lia.
    - assert (0 <= feePool (header l) < TWO64) as Hr by range.
      pose proof (cbAmountToDole_le _ Hr) as Hc.
      rewrite i64_small by range. lia. }
  assert (poolOf cfg l <= INT64_MAX) as Hpool by (unfold poolOf; exact Hrep).
  destruct (sumShares_bounds (amountToDoleOf cfg l) (totalVotesOf cfg l)
              (winnersOf cfg l rows)) as (Hsh0 & Hshle & _); try lia; [exact Hvotes|].
  unfold votesWithin in Hin.
  assert (sumShares (amountToDoleOf cfg l) (totalVotesOf cfg l) (winnersOf cfg l rows)
          <= amountToDoleOf cfg l) as Hshares by nia.
  assert (db (startFrame cfg l) = accounts l) as Hdb
    by (unfold startFrame; destruct (isOrig cfg); reflexivity).
  destruct (doleWinners_succeeds (isOrig cfg) (amountToDoleOf cfg l) (totalVotesOf cfg l)
              (winnersOf cfg l rows) (startFrame cfg l)) as [s Hloop];
    try lia; try assumption.
  { rewrite Hdb. intros k b Hk. specialize (Hbal k b Hk). lia. }
  destruct (isOrig cfg) eqn:Ho.
  - assert (0 <= origTotalVotes (header l)) as H0
      by (unfold totalVotesOf in HTV; rewrite Ho in HTV; lia).
    rewrite (orig_run _ _ _ Ho Ht H0), Hloop. eexists _, _. reflexivity.
  - rewrite (cb_run _ _ _ Ho Ht), Hloop.
    assert (0 <= feePool (header l) <= INT64_MAX) as Hfp
      by (unfold poolOf in Hpool; lia).
    destruct (cb_loop_frame _ _ _ _ Ho Hfp Hin Hloop) as (Hps & Hdbs & Hleft & Hsum).
    pose proof (doleWinners_payouts _ _ _ _ _ _ Hloop) as (Hpos & _).
    rewrite Hdb in Hpos.
    unfold cbCredit, loadAccount, fromStrKey.
    destruct (db s !! COMMON_BUDGET_ACCOUNT_ID cfg) as [b|] eqn:Hsink.
    + assert (is_Some (accounts l !! COMMON_BUDGET_ACCOUNT_ID cfg)) as [b0 Hb0].
      { apply (creditAll_is_Some (payouts s)). rewrite Hps, <- Hdbs.
        eexists; exact Hsink. }
      destruct (creditAll_lookup_bounds _ _ _ _ (positive_nonneg _ Hpos) Hb0)
        as (b' & Hb' & Hle).
      rewrite <- Hdbs, Hsink in Hb'. injection Hb' as <-.
      specialize (Hbal _ _ Hb0). unfold poolOf in Hbal. rewrite Ho in Hbal.
      rewrite addBalance_in_range by range.
      cbn [mbind Res_bind]. eexists _, _. reflexivity.
    + cbn [mbind Res_bind]. eexists _, _. reflexivity.
Qed.

Lemma sound_ledger_run_succeeds_witness :
  (exists ps l', doApply configOrig ledgerDue rowsTwo = Ok (INFLATION_SUCCESS ps, l')) /\
  (exists ps l', doApply configBudget ledgerDue rowsDust = Ok (INFLATION_SUCCESS ps, l')).
Proof.
  assert (forall k b, accountsDue !! k = Some b ->
                      0 <= b /\ b + 190722000000 <= INT64_MAX) as Hbal.
  { intros k b Hk. unfold accountsDue in Hk.
    destruct (decide ("GA" = k)) as [<-|Ha];
      [rewrite lookup_insert_eq in Hk; injection Hk as <-; range|].
    rewrite lookup_insert_ne in Hk by exact Ha.
    destruct (decide ("GB" = k)) as [<-|Hb];
      [rewrite lookup_insert_eq in Hk; injection Hk as <-; range|].
    rewrite lookup_insert_ne in Hk by exact Hb.
    destruct (decide ("GD" = k)) as [<-|Hd];
      [rewrite lookup_insert_eq in Hk; injection Hk as <-; range|].
    rewrite lookup_insert_ne in Hk by exact Hd.
    rewrite lookup_empty in Hk. discriminate. }
  split.
  - apply sound_ledger_run_succeeds.
    + reflexivity.
    + vm_compute. reflexivity.
    + unfold poolRepresentable. vm_compute. split; discriminate.
    + intros [=].
    + unfold votesWithin. vm_compute. discriminate.
    + intros k b Hk. apply (Hbal k b Hk).
  - apply sound_ledger_run_succeeds.
    + reflexivity.
    + vm_compute. reflexivity.
    + unfold poolRepresentable. vm_compute. split; discriminate.
    + intros _. simpl. lia.
    + unfold votesWithin. vm_compute. discriminate.
    + intros k b Hk. destruct (Hbal k b Hk) as [H0 Hmax].
      split; [exact H0|]. change (poolOf configBudget ledgerDue) with 1000000. lia.
Defined.

(** ** Rounding *)

(** When every destination exists the recorded payouts are the shares:
    a share of zero is not recorded and adds nothing. *)
Lemma winnerPayouts_all_exist A TV (m : gmap string Z) ws :
  Forall (fun w => is_Some (m !! mInflationDest w)) ws ->
  sumAmounts (winnerPayouts A TV m ws) = sumShares A TV ws.
Proof.
  intros Hall. induction Hall as [|w ws [b Hb] Hall IH]; [reflexivity|].
  rewrite winnerPayouts_step. cbn [sumShares foldr]. fold (sumShares A TV ws).
  unfold payoutOf. rewrite Hb.
  destruct (share A TV w =? 0) eqn:Hz.
  - apply Z.eqb_eq in Hz. lia.
  - simpl. lia.
Qed.

(** X9: rounding down leaves less than one unit per winner
    undistributed: in a successful run of either scheme whose winners
    all exist as accounts and hold all of a positive total of votes, the
    winner payouts together are at most [amountToDole] and more than
    [amountToDole] less the number of winners. *)
Theorem rounding_loses_less_than_one_per_winner cfg l rows ps l' :
  0 < totalVotesOf cfg l ->
  sumVotes (winnersOf cfg l rows) = totalVotesOf cfg l ->
  Forall (fun w => is_Some (accounts l !! mInflationDest w)) (winnersOf cfg l rows) ->
  doApply cfg l rows = Ok (INFLATION_SUCCESS ps, l') ->
  exists wps sink,
    ps = wps ++ sink /\
    (sink = [] \/
     isOrig cfg = false /\ exists c, sink = [mkPayout (COMMON_BUDGET_ACCOUNT_ID cfg) c]) /\
    amountToDoleOf cfg l - Z.of_nat (length (winnersOf cfg l rows)) < sumAmounts wps /\
    sumAmounts wps <= amountToDoleOf cfg l.
Proof.
  intros HTV Hsum Hex H.
  destruct (success_loop _ _ _ _ _ H) as (s & sink & Hloop & Hps & Hsink).
  pose proof (doleWinners_Ok _ _ _ _ _ _ Hloop) as [_ Hall].
  pose proof (loop_result _ _ _ _ _ _ Hloop) as (Hpay & _).
  assert (db (startFrame cfg l) = accounts l) as Hdb
    by (unfold startFrame; destruct (isOrig cfg); reflexivity).
  assert (payouts (startFrame cfg l) = []) as Hnil
    by (unfold startFrame; destruct (isOrig cfg); reflexivity).
  rewrite Hdb, Hnil in Hpay. simpl in Hpay.
  exists (payouts s), sink. split; [exact Hps|]. split.
  { destruct Hsink as [->|[Ho ->]]; [left; reflexivity|].
    right. split; [exact Ho|]. eexists; reflexivity. }
  rewrite Hpay, (winnerPayouts_all_exist _ _ _ _ Hex).
  apply doleWinners_domain in Hall as [Hv Hne].
  destruct (winnersOf cfg l rows) as [|w ws] eqn:Hws.
  { simpl in Hsum. lia. }
  destruct Hne as [HA _]; [discriminate|].
  destruct (sumShares_bounds _ _ _ HA HTV Hv) as (_ & Hle & Hge).
  rewrite Hsum in Hle, Hge.
  assert (0 < Z.of_nat (length (w :: ws))) by (simpl; lia).
  split; nia.
Qed.

Lemma rounding_loses_less_than_one_per_winner_witness :
  exists l' wps sink,
    doApply configBudget ledgerDue rowsDust =
      Ok (INFLATION_SUCCESS [mkPayout "GA" 699999; mkPayout "GB" 300001], l') /\
    [mkPayout "GA" 699999; mkPayout "GB" 300001] = wps ++ sink /\
    700000 - 2 < sumAmounts wps <= 700000.
Proof.
  eexists.
  assert (doApply configBudget ledgerDue rowsDust =
          Ok (INFLATION_SUCCESS [mkPayout "GA" 699999; mkPayout "GB" 300001],
              mkLedger (mkHeader 1000000000000000 0 3 1404173400 9)
                (<["GB" := 99999998300001]> (<["GA" := 900000000699999]> accountsDue))))
    as Hrun by (vm_compute; reflexivity).
  edestruct (rounding_loses_less_than_one_per_winner configBudget ledgerDue rowsDust)
    as (wps & sink & Hps & _ & Hlo & Hhi).
  - vm_compute. reflexivity.
  - vm_compute. reflexivity.
  - repeat constructor; vm_compute; eexists; reflexivity.
  - exact Hrun.
  - exists wps, sink. split; [exact Hrun|]. split; [exact Hps|].
    split; [exact Hlo|exact Hhi].
Defined.

(** ** The ledger version *)

Lemma doleWinner_header mint1 mint2 A TV w s1 s2 :
  sameButHeader s1 s2 ->
  sameOutcome (doleWinner mint1 A TV w s1) (doleWinner mint2 A TV w s2).
Proof.
  intros (Hdb & Hps & Hleft). unfold doleWinner, loadAccount.
  destruct (bigDivide A (mVotes w) TV) as [t|f]; [|reflexivity].
  cbn [mbind Res_bind]. destruct (t =? 0); [repeat split; assumption|].
  rewrite Hdb. destruct (db s2 !! mInflationDest w) as [b|];
    [|repeat split; assumption].
  destruct (addBalance b t); [|reflexivity].
  simpl. unfold sameButHeader. simpl. rewrite Hps, Hleft. repeat split.
Qed.

Lemma doleWinners_header mint1 mint2 A TV ws : forall s1 s2,
  sameButHeader s1 s2 ->
  sameOutcome (doleWinners mint1 A TV ws s1) (doleWinners mint2 A TV ws s2).
Proof.
  induction ws as [|w ws IH]; intros s1 s2 Hsame; simpl; [exact Hsame|].
  pose proof (doleWinner_header mint1 mint2 A TV w s1 s2 Hsame) as Hstep.
  destruct (doleWinner mint1 A TV w s1) as [a1|f1],
           (doleWinner mint2 A TV w s2) as [a2|f2]; simpl in Hstep;
    try contradiction; cbn [mbind Res_bind].
  - apply IH. exact Hstep.
  - exact Hstep.
Qed.

Lemma cbCredit_header cfg s1 s2 :
  sameButHeader s1 s2 ->
  match cbCredit cfg s1, cbCredit cfg s2 with
  | Ok a1, Ok a2 =>
      sameButHeader a1 a2 /\
      lcl a1 = incInflationSeq (lcl s1) /\ lcl a2 = incInflationSeq (lcl s2)
  | Throw f1, Throw f2 => f1 = f2
  | _, _ => False
  end.
Proof.
  intros (Hdb & Hps & Hleft). unfold cbCredit, loadAccount, fromStrKey.
  rewrite Hdb, Hleft.
  destruct (db s2 !! COMMON_BUDGET_ACCOUNT_ID cfg) as [b|].
  - destruct (addBalance b (leftAfterDole s2)); [|reflexivity].
    cbn [mbind Res_bind]. unfold sameButHeader. simpl. rewrite Hps.
    repeat split.
  - cbn [mbind Res_bind]. unfold sameButHeader. simpl. rewrite Hdb, Hps, Hleft.
    repeat split.
Qed.

Lemma origFinish_fields ia s :
  feePool (origFinish ia s) = u64 (feePool (lcl s) + leftAfterDole s) /\
  inflationSeq (origFinish ia s) = inflationSeq (lcl s) /\
  closeTime (origFinish ia s) = closeTime (lcl s).
Proof.
  unfold origFinish. simpl. destruct (7 <? ledgerVersion (lcl s)); repeat split.
Qed.

(** X10: the ledger version decides nothing but the total of coins, and
    that in the original scheme only: the same ledger at another ledger
    version fails with the same failure or returns the same result with
    the same payouts, balances, fee pool, sequence number and close
    time, and in the common budget scheme the same total of coins. *)
Theorem ledger_version_only_touches_totalCoins cfg l rows v :
  match doApply cfg l rows, doApply cfg (withVersion v l) rows with
  | Ok (r1, l1), Ok (r2, l2) =>
      r1 = r2 /\ accounts l1 = accounts l2 /\
      feePool (header l1) = feePool (header l2) /\
      inflationSeq (header l1) = inflationSeq (header l2) /\
      closeTime (header l1) = closeTime (header l2) /\
      (isOrig cfg = false -> totalCoins (header l1) = totalCoins (header l2))
  | Throw f1, Throw f2 => f1 = f2
  | _, _ => False
  end.
Proof.
  assert (notTime (header (withVersion v l)) = notTime (header l)) as Hnt by reflexivity.
  destruct (notTime (header l)) eqn:Ht.
  { rewrite (doApply_notTime cfg l rows Ht), (doApply_notTime cfg (withVersion v l) rows Hnt).
    repeat split. }
  assert (sameButHeader (startFrame cfg l) (startFrame cfg (withVersion v l))) as Hstart.
  { unfold startFrame, sameButHeader. destruct (isOrig cfg); repeat split. }
  destruct (isOrig cfg) eqn:Ho.
  - destruct (Z_lt_le_dec (origTotalVotes (header l)) 0) as [Hneg|H0].
    { rewrite (orig_negative cfg l rows Ho Ht Hneg).
      rewrite (orig_negative cfg (withVersion v l) rows Ho Hnt Hneg). reflexivity. }
    rewrite (orig_run cfg l rows Ho Ht H0).
    rewrite (orig_run cfg (withVersion v l) rows Ho Hnt H0).
    change (amountToDoleOf cfg (withVersion v l)) with (amountToDoleOf cfg l).
    change (totalVotesOf cfg (withVersion v l)) with (totalVotesOf cfg l).
    change (winnersOf cfg (withVersion v l) rows) with (winnersOf cfg l rows).
    pose proof (doleWinners_header true true (amountToDoleOf cfg l) (totalVotesOf cfg l)
                  (winnersOf cfg l rows) _ _ Hstart) as Hsame.
    destruct (doleWinners true _ _ _ (startFrame cfg l)) as [s1|f1] eqn:H1,
             (doleWinners true _ _ _ (startFrame cfg (withVersion v l))) as [s2|f2] eqn:H2;
      simpl in Hsame; try contradiction; [|exact Hsame].
    destruct Hsame as (Hdb & Hps & Hleft).
    apply loop_result in H1 as (_ & _ & Hf1 & Hq1 & Hc1 & _).
    apply loop_result in H2 as (_ & _ & Hf2 & Hq2 & Hc2 & _).
    rewrite startFrame_orig in Hf1, Hq1, Hc1, Hf2, Hq2, Hc2 by exact Ho.
    simpl in Hf1, Hq1, Hc1, Hf2, Hq2, Hc2.
    destruct (origFinish_fields (inflationAmountOf (header l)) s1) as (He1 & He2 & He3).
    destruct (origFinish_fields (inflationAmountOf (header (withVersion v l))) s2)
      as (Hg1 & Hg2 & Hg3).
    cbn [header accounts].
    rewrite He1, He2, He3, Hg1, Hg2, Hg3, Hps, Hdb, Hleft, Hf1, Hf2, Hq1, Hq2, Hc1, Hc2.
    repeat split. intros [=].
  - rewrite (cb_run cfg l rows Ho Ht).
    rewrite (cb_run cfg (withVersion v l) rows Ho Hnt).
    change (amountToDoleOf cfg (withVersion v l)) with (amountToDoleOf cfg l).
    change (totalVotesOf cfg (withVersion v l)) with (totalVotesOf cfg l).
    change (winnersOf cfg (withVersion v l) rows) with (winnersOf cfg l rows).
    pose proof (doleWinners_header false false (amountToDoleOf cfg l) (totalVotesOf cfg l)
                  (winnersOf cfg l rows) _ _ Hstart) as Hsame.
    destruct (doleWinners false _ _ _ (startFrame cfg l)) as [s1|f1] eqn:H1,
             (doleWinners false _ _ _ (startFrame cfg (withVersion v l))) as [s2|f2] eqn:H2;
      simpl in Hsame; try contradiction; [|exact Hsame].
    pose proof (cbCredit_header cfg s1 s2 Hsame) as Hcredit.
    assert (amountToDoleOf cfg (withVersion v l) = amountToDoleOf cfg l) as HA by reflexivity.
    pose proof (cb_loop_lcl cfg l rows s1 Ho H1) as Hl1.
    pose proof (cb_loop_lcl cfg (withVersion v l) rows s2 Ho H2) as Hl2.
    destruct (cbCredit cfg s1) as [a1|g1], (cbCredit cfg s2) as [a2|g2];
      try contradiction; [|exact Hcredit].
    destruct Hcredit as ((Hdb & Hps & _) & Ha1 & Ha2).
    cbn [header accounts]. rewrite Hps, Hdb, Ha1, Ha2, Hl1, Hl2. repeat split.
Qed.

(** ** The tally *)

Lemma enumerateVotes_prefix minBalance rows : forall winners,
  exists pre rest,
    rows = pre ++ rest /\
    enumerateVotes (collectWinner minBalance) rows winners = winners ++ pre /\
    Forall (fun w => minBalance <= mVotes w) pre /\
    match rest with [] => True | v :: _ => mVotes v < minBalance end.
Proof.
  induction rows as [|v rows IH]; intros winners.
  - exists [], []. simpl. rewrite app_nil_r. repeat split. constructor.
  - simpl. unfold collectWinner at 1. destruct (minBalance <=? mVotes v) eqn:Hv.
    + destruct (IH (winners ++ [v])) as (pre & rest & -> & He & Hall & Hrest).
      exists (v :: pre), rest. rewrite He, <- app_assoc. simpl.
      repeat split; [|exact Hrest].
      constructor; [apply Z.leb_le; exact Hv|exact Hall].
    + exists [], (v :: rows). simpl. rewrite app_nil_r. repeat split; [constructor|].
      apply Z.leb_gt. exact Hv.
Qed.

(** X11: the winners are the leading candidates: of the first
    [maxWinners] candidates of the tally the callback keeps those before
    the first one whose votes are below the threshold, in order, and
    none after it. *)
Theorem winners_are_the_leading_candidates cfg l rows :
  let minBalance := if isOrig cfg then minBalanceOf (header l)
                    else COMMON_BUDGET_INFLATION_MIN_BALANCE cfg in
  let maxWinners := if isOrig cfg then INFLATION_NUM_WINNERS
                    else COMMON_BUDGET_INFLATION_MAX_ACCOUNTS cfg in
  exists rest,
    take (Z.to_nat maxWinners) rows = winnersOf cfg l rows ++ rest /\
    Forall (fun w => minBalance <= mVotes w) (winnersOf cfg l rows) /\
    match rest with [] => True | v :: _ => mVotes v < minBalance end.
Proof.
  unfold winnersOf, processForInflation, processForCommonBudgetInflation.
  destruct (isOrig cfg); cbv zeta;
    match goal with
    | |- context [enumerateVotes (collectWinner ?m) (take ?n rows) []] =>
        destruct (enumerateVotes_prefix m (take n rows) [])
          as (pre & rest & Hrows & He & Hall & Hrest);
        exists rest; rewrite He; cbn [app];
        split; [exact Hrows|split; [exact Hall|exact Hrest]]
    end.
Qed.

(** ** The parameters of the common budget scheme, continued *)

Lemma append_cons c (s t : string) : String c s +:+ t = String c (s +:+ t).
Proof. reflexivity. Qed.

Lemma append_assoc (s t u : string) : (s +:+ t) +:+ u = s +:+ (t +:+ u).
Proof.
  induction s as [|c s IH]; [reflexivity|].
  rewrite !append_cons, IH. reflexivity.
Qed.

Lemma append_empty_r (s : string) : s +:+ "" = s.
Proof.
  induction s as [|c s IH]; [reflexivity|].
  rewrite append_cons, IH. reflexivity.
Qed.

Lemma length_append (s t : string) :
  String.length (s +:+ t) = (String.length s + String.length t)%nat.
Proof.
  induction s as [|c s IH]; [reflexivity|].
  rewrite append_cons. simpl. rewrite IH. reflexivity.
Qed.

Lemma substring_append (s t : string) :
  String.substring 0 (String.length s) (s +:+ t) = s.
Proof.
  induction s as [|c s IH].
  - destruct t; reflexivity.
  - rewrite append_cons. simpl. rewrite IH. reflexivity.
Qed.

Lemma quotedAccounts_cons a rest :
  quotedAccounts (a :: rest) +:+ ", " =
  "'" +:+ a +:+ "', " +:+
  match rest with [] => "" | _ => quotedAccounts rest +:+ ", " end.
Proof.
  destruct rest as [|b rest].
  - cbn [quotedAccounts]. rewrite !append_assoc. reflexivity.
  - change (quotedAccounts (a :: b :: rest))
      with ("'" +:+ a +:+ "', " +:+ quotedAccounts (b :: rest)).
    rewrite !append_assoc. reflexivity.
Qed.

Lemma excluded_fold excluded : forall acc,
  fold_left (fun acc a => acc +:+ "'" +:+ a +:+ "', ") excluded acc =
  acc +:+ match excluded with [] => "" | _ => quotedAccounts excluded +:+ ", " end.
Proof.
  induction excluded as [|a rest IH]; intros acc.
  - simpl. rewrite append_empty_r. reflexivity.
  - cbn [fold_left]. rewrite IH, quotedAccounts_cons.
    rewrite !append_assoc. reflexivity.
Qed.

(** X12: the text handed to the query of the common budget tally names
    the excluded accounts in order, each between quotes, with a comma
    and a space between two of them and nothing after the last; it is
    empty when no account is excluded. *)
Theorem excluded_accounts_quoted_and_separated cfg :
  excludedAccountsText cfg =
  quotedAccounts (COMMON_BUDGET_INFLATION_EXCLUDED_ACCOUNTS cfg).
Proof.
  unfold excludedAccountsText. rewrite excluded_fold.
  destruct (COMMON_BUDGET_INFLATION_EXCLUDED_ACCOUNTS cfg) as [|a rest];
    [reflexivity|].
  change ("" +:+ quotedAccounts (a :: rest) +:+ ", ")
    with (quotedAccounts (a :: rest) +:+ ", ").
  rewrite length_append.
  replace (String.length (quotedAccounts (a :: rest)) + String.length ", " - 2)%nat
    with (String.length (quotedAccounts (a :: rest))) by (simpl; lia).
  apply substring_append.
Qed.

(** X13: on a ledger whose balances are not negative and whose fee pool
    is part of a total of coins representable as [int64] and small
    enough for its sevenfold to fit in 64 bits, the common budget
    scheme shares seven tenths of the fee pool, rounded down,
    among votes that total the coins outside the fee pool less the
    balance of every excluded account that exists, an account listed
    twice being subtracted twice. *)
Theorem common_budget_parameters cfg l :
  isOrig cfg = false ->
  0 <= feePool (header l) <= totalCoins (header l) ->
  totalCoins (header l) <= INT64_MAX ->
  feePool (header l) * 7 < TWO64 ->
  (forall a b, accounts l !! a = Some b -> 0 <= b) ->
  INT64_MIN <= totalCoins (header l) - feePool (header l) -
               excludedBalances (accounts l) (COMMON_BUDGET_INFLATION_EXCLUDED_ACCOUNTS cfg) ->
  totalVotesOf cfg l =
    totalCoins (header l) - feePool (header l) -
    excludedBalances (accounts l) (COMMON_BUDGET_INFLATION_EXCLUDED_ACCOUNTS cfg) /\
  amountToDoleOf cfg l = feePool (header l) * 7 / 10 /\
  0 <= amountToDoleOf cfg l <= feePool (header l).
Proof.
  intros Ho Hfp Htc Hseven Hpos Hmin. unfold totalVotesOf, amountToDoleOf. rewrite Ho.
  split; [apply cbTotalVotes_exact; assumption|].
  assert (cbAmountToDole (header l) = feePool (header l) * 7 / 10) as He
    by (apply cbAmountToDole_exact; lia).
  assert (0 <= feePool (header l) * 7 / 10 <= feePool (header l)) as Hb.
  { split; [apply Z.div_pos; lia|]. apply Z.div_le_upper_bound; lia. }
  rewrite He, i64_small by range. split; [reflexivity|exact Hb].
Qed.

Lemma common_budget_parameters_witness :
  totalVotesOf configBudget ledgerDue =
    1000000000000000 - 1000000 - 99999998000000 /\
  amountToDoleOf configBudget ledgerDue = 700000.
Proof.
  assert (forall a b, accountsDue !! a = Some b -> 0 <= b) as Hbal.
  { intros k b Hk. unfold accountsDue in Hk.
    destruct (decide ("GA" = k)) as [<-|Ha];
      [rewrite lookup_insert_eq in Hk; injection Hk as <-; lia|].
    rewrite lookup_insert_ne in Hk by exact Ha.
    destruct (decide ("GB" = k)) as [<-|Hb];
      [rewrite lookup_insert_eq in Hk; injection Hk as <-; lia|].
    rewrite lookup_insert_ne in Hk by exact Hb.
    destruct (decide ("GD" = k)) as [<-|Hd];
      [rewrite lookup_insert_eq in Hk; injection Hk as <-; lia|].
    rewrite lookup_insert_ne in Hk by exact Hd.
    rewrite lookup_empty in Hk. discriminate. }
  destruct (common_budget_parameters configBudget ledgerDue) as (Hv & Ha & _).
  - reflexivity.
  - simpl. lia.
  - unfold INT64_MAX. simpl. lia.
  - unfold TWO64. simpl. lia.
  - exact Hbal.
  - vm_compute. discriminate.
  - split.
    + rewrite Hv. vm_compute. reflexivity.
    + rewrite Ha. reflexivity.
Defined.
